(** * Semantic search service of the A2A registry: model and properties

    Shallow embedding of [semantic-search/embeddings.py],
    [semantic-search/database.py], [semantic-search/models.py] and
    [semantic-search/main.py].

    Conventions of the model
    - Python [str] is [string]; [str.lower] acts on the ASCII letters.
    - A JSON object read with [dict.get] is a record of [option] fields:
      [None] is an absent key.
    - Scores that travel between PostgreSQL and Python are rationals [Q];
      [round(x, 4)] is round-half-to-even on the exact value.  The NaN that
      the distance operator returns for a zero vector is outside the model.
    - The sentence-transformer model and the pgvector distance operator are
      external: they are the two methods of the class [Backend].
    - A table is the list of its rows in heap order; ORDER BY is a stable
      sort of the rows it receives.
    - Time is a parameter [now] of every route that writes.
    - [compute_similarity] is numpy arithmetic; it is modelled over the
      reals [R] in the module [Similarity]. *)

From Stdlib Require Import List String Ascii Bool Arith ZArith QArith Lia.
From Stdlib Require Import Permutation Sorted.
From Stdlib Require Import Reals Lra.
From Stdlib Require Import DecimalString.
Import ListNotations.

Local Open Scope list_scope.
Local Open Scope string_scope.

Set Implicit Arguments.

(* ================================================================= *)
(** ** Python primitives *)

Module Py.

(** Outcome of a call that may raise. *)
Inductive result (E A : Type) : Type :=
| Ok (a : A)
| Raise (e : E).
Arguments Ok {E A} a.
Arguments Raise {E A} e.

Definition bind {E A B} (m : result E A) (k : A -> result E B) : result E B :=
  match m with
  | Ok a => k a
  | Raise e => Raise e
  end.

(** Truth value of a string: [bool(s)]. *)
Definition truthy (s : string) : bool :=
  match s with
  | EmptyString => false
  | String _ _ => true
  end.

(** [d.get(key)] used as a condition: the value when it is present and
    truthy. *)
Definition get_truthy (o : option string) : option string :=
  match o with
  | Some s => if truthy s then Some s else None
  | None => None
  end.

(** [d.get(key, default)]. *)
Definition get_default (o : option string) (default : string) : string :=
  match o with
  | Some s => s
  | None => default
  end.

(** [l.append(x)]. *)
Definition list_append {A} (l : list A) (x : A) : list A := (l ++ [x])%list.

(** [sep.join(parts)]. *)
Fixpoint join (sep : string) (parts : list string) : string :=
  match parts with
  | [] => ""
  | [p] => p
  | p :: rest => p ++ sep ++ join sep rest
  end.

Definition lower_ascii (c : ascii) : ascii :=
  let n := nat_of_ascii c in
  if (65 <=? n)%nat && (n <=? 90)%nat then ascii_of_nat (n + 32) else c.

(** [s.lower()]. *)
Fixpoint lower (s : string) : string :=
  match s with
  | EmptyString => EmptyString
  | String c s' => String (lower_ascii c) (lower s')
  end.

(** [s.startswith(p)]. *)
Fixpoint startswith (p s : string) : bool :=
  match p, s with
  | EmptyString, _ => true
  | String a p', String b s' => Ascii.eqb a b && startswith p' s'
  | String _ _, EmptyString => false
  end.

(** [needle in hay] on strings. *)
Fixpoint contains (needle hay : string) : bool :=
  startswith needle hay ||
  match hay with
  | EmptyString => false
  | String _ hay' => contains needle hay'
  end.

(** [round(x, ndigits)] on a float, taken on its exact value: the nearest
    multiple of [1/scale], ties to the even one.  [round_half_even n d] is
    the integer nearest to [n/d]. *)
Definition round_half_even (n : Z) (d : positive) : Z :=
  let fl := (n / Zpos d)%Z in
  let r := (n mod Zpos d)%Z in
  match (2 * r ?= Zpos d)%Z with
  | Lt => fl
  | Gt => (fl + 1)%Z
  | Eq => if Z.even fl then fl else (fl + 1)%Z
  end.

Definition round4 (x : Q) : Q :=
  Qmake (round_half_even (Qnum x * 10000) (Qden x)) 10000.

End Py.

Import Py.

Notation "x <- m ;; k" := (bind m (fun x => k))
  (at level 61, m at next level, right associativity).

(* ================================================================= *)
(** ** Data model ([models.py] and the JSON stored in the registry) *)

(** A skill as a JSON object. *)
Record SkillData : Type := mkSkillData {
  sd_name : option string;
  sd_description : option string
}.

(** An agent card as a JSON object ([agent_card] column, [model_dump()]). *)
Record AgentCardData : Type := mkAgentCardData {
  cd_name : option string;
  cd_description : option string;
  cd_endpoint : option string;
  cd_skills : list SkillData
}.

(** [class Skill(BaseModel)]. *)
Record Skill : Type := mkSkill {
  skill_name : string;
  skill_description : option string
}.

(** [class AgentCard(BaseModel)]. *)
Record AgentCard : Type := mkAgentCard {
  card_name : string;
  card_description : option string;
  card_endpoint : string;
  card_skills : list Skill
}.

(** Pydantic validation of a [Skill] built from a JSON object: [name] is
    required. *)
Definition validate_Skill (d : SkillData) : option Skill :=
  match sd_name d with
  | Some n => Some (mkSkill n (sd_description d))
  | None => None
  end.

Fixpoint validate_skills (ds : list SkillData) : option (list Skill) :=
  match ds with
  | [] => Some []
  | d :: ds' =>
      match validate_Skill d, validate_skills ds' with
      | Some s, Some ss => Some (s :: ss)
      | _, _ => None
      end
  end.

(** Pydantic validation of an [AgentCard] built from a JSON object: [name]
    and [endpoint] are required, every skill must validate. *)
Definition validate_AgentCard (d : AgentCardData) : option AgentCard :=
  match cd_name d, cd_endpoint d, validate_skills (cd_skills d) with
  | Some n, Some e, Some ss => Some (mkAgentCard n (cd_description d) e ss)
  | _, _, _ => None
  end.

(** [card.model_dump()]: every declared field becomes a key. *)
Definition Skill_model_dump (s : Skill) : SkillData :=
  mkSkillData (Some (skill_name s)) (skill_description s).

Definition model_dump (c : AgentCard) : AgentCardData :=
  mkAgentCardData (Some (card_name c)) (card_description c)
                  (Some (card_endpoint c))
                  (map Skill_model_dump (card_skills c)).

Definition vector : Type := list Q.

(** The embedding model ([SentenceTransformer.encode], which may raise) and
    the pgvector operator [<=>]. *)
Class Backend : Type := {
  encode : string -> option vector;
  cosine_distance : vector -> vector -> Q
}.

(* ================================================================= *)
(** ** [embeddings.py]: text composition for an agent *)

Section EmbeddingService.
Context {backend : Backend}.

(** [embed_text]. *)
Definition embed_text (text : string) : option vector := encode text.

(** The skill entry built in the loop of [embed_agent]. *)
Definition skill_text (skill : SkillData) : string :=
  let skill_text := "Skill: " ++ get_default (sd_name skill) "" in
  match get_truthy (sd_description skill) with
  | Some skill_desc => skill_text ++ " - " ++ skill_desc
  | None => skill_text
  end.

(** [text_parts] at the end of [embed_agent], built by the same sequence
    of appends. *)
Definition text_parts (agent_card : AgentCardData)
           (tags : option (list string)) : list string :=
  let text_parts := [] in
  let text_parts :=
    match get_truthy (cd_name agent_card) with
    | Some name => list_append text_parts ("Agent: " ++ name)
    | None => text_parts
    end in
  let text_parts :=
    match get_truthy (cd_description agent_card) with
    | Some description =>
        list_append text_parts ("Description: " ++ description)
    | None => text_parts
    end in
  let text_parts :=
    fold_left (fun acc skill => list_append acc (skill_text skill))
              (cd_skills agent_card) text_parts in
  match tags with
  | Some (t :: ts) =>
      list_append text_parts ("Tags: " ++ join ", " (t :: ts))
  | _ => text_parts
  end.

(** [combined_text] of [embed_agent]. *)
Definition combined_text (agent_card : AgentCardData)
           (tags : option (list string)) : string :=
  match text_parts agent_card tags with
  | [] => get_default (cd_name agent_card) "unknown"
  | parts => join " | " parts
  end.

Definition embed_agent (agent_card : AgentCardData)
           (tags : option (list string)) : option vector :=
  embed_text (combined_text agent_card tags).

End EmbeddingService.

(* ================================================================= *)
(** ** [database.py]: the two tables and the queries *)

(** A row of [registry_entries] (the columns the service reads). *)
Record RegistryRow : Type := mkRegistryRow {
  r_agent_id : string;
  r_agent_card : AgentCardData;
  r_tags : list string;
  r_verified : bool;
  r_registered_at : Z
}.

(** A row of [agent_embeddings], as created by [_setup_vector_table]. *)
Record EmbeddingRow : Type := mkEmbeddingRow {
  e_id : Z;
  e_agent_id : string;
  e_embedding : vector;
  e_text_content : string;
  e_created_at : Z;
  e_updated_at : Z
}.

(** The database: both tables in heap order and the sequence behind
    [id SERIAL]. *)
Record Database : Type := mkDatabase {
  registry_entries : list RegistryRow;
  agent_embeddings : list EmbeddingRow;
  agent_embeddings_id_seq : Z
}.

Inductive DbError : Type :=
| StringDataRightTruncation   (* agent_id longer than VARCHAR(255) *)
| DataException               (* embedding is not a vector(384) *)
| ForeignKeyViolation         (* agent_id not in registry_entries *)
| InvalidRowCount.            (* negative LIMIT *)

(** Dimension of the column [embedding vector(384)]. *)
Definition embedding_dimension : nat := 384.

(** [ORDER BY]: stable insertion sort; [before x y] says that [x] may
    precede [y]. *)
Fixpoint insert_by {A} (before : A -> A -> bool) (x : A) (l : list A) : list A :=
  match l with
  | [] => [x]
  | y :: l' => if before x y then x :: y :: l' else y :: insert_by before x l'
  end.

Definition order_by {A} (before : A -> A -> bool) (l : list A) : list A :=
  fold_right (insert_by before) [] l.

(** The dictionary [agent_data] built from a fetched row. *)
Record AgentData : Type := mkAgentData {
  ad_agent_id : string;
  ad_agent_card : AgentCardData;
  ad_tags : list string;
  ad_verified : bool;
  ad_matched_text : string
}.

(** A row of the SELECT of [search_similar]. *)
Record SearchRow : Type := mkSearchRow {
  row_agent_id : string;
  row_agent_card : AgentCardData;
  row_tags : list string;
  row_verified : bool;
  row_text_content : string;
  row_similarity : Q
}.

(** [a && b] on text arrays: the arrays have an element in common. *)
Definition array_overlap (a b : list string) : bool :=
  existsb (fun x => existsb (String.eqb x) b) a.

(** The dictionaries returned by [get_all_agents]. *)
Record AgentSnapshot : Type := mkAgentSnapshot {
  as_agent_id : string;
  as_agent_card : AgentCardData;
  as_tags : list string
}.

Section DatabaseService.
Context {backend : Backend}.

Definition has_agent_id (agent_id : string) (e : EmbeddingRow) : bool :=
  String.eqb (e_agent_id e) agent_id.

(** [DO UPDATE SET embedding, text_content, updated_at] on the conflicting
    row. *)
Definition do_update (agent_id : string) (embedding : vector)
           (text_content : string) (now : Z) (e : EmbeddingRow) : EmbeddingRow :=
  if has_agent_id agent_id e
  then mkEmbeddingRow (e_id e) (e_agent_id e) embedding text_content
                      (e_created_at e) now
  else e.

(** [store_embedding]: INSERT ... ON CONFLICT (agent_id) DO UPDATE, executed
    at time [now]. *)
Definition store_embedding (db : Database) (now : Z) (agent_id : string)
           (embedding : vector) (text_content : string)
  : result DbError Database :=
  if (255 <? String.length agent_id)%nat then Raise StringDataRightTruncation
  else if negb (List.length embedding =? embedding_dimension)%nat
  then Raise DataException
  else
    let seq := agent_embeddings_id_seq db in
    if existsb (has_agent_id agent_id) (agent_embeddings db)
    then Ok (mkDatabase (registry_entries db)
                        (map (do_update agent_id embedding text_content now)
                             (agent_embeddings db))
                        (seq + 1))
    else if existsb (fun r => String.eqb (r_agent_id r) agent_id)
                    (registry_entries db)
    then Ok (mkDatabase (registry_entries db)
                        (agent_embeddings db ++
                         [mkEmbeddingRow seq agent_id embedding text_content
                                         now now])%list
                        (seq + 1))
    else Raise ForeignKeyViolation.

(** FROM agent_embeddings e JOIN registry_entries r ON e.agent_id =
    r.agent_id, with the select list evaluated for the query vector. *)
Definition join_rows (db : Database) (query_embedding : vector)
  : list SearchRow :=
  flat_map
    (fun e =>
       map (fun r =>
              mkSearchRow (r_agent_id r) (r_agent_card r) (r_tags r)
                          (r_verified r) (e_text_content e)
                          (1 - cosine_distance (e_embedding e) query_embedding))
           (filter (fun r => String.eqb (e_agent_id e) (r_agent_id r))
                   (registry_entries db)))
    (agent_embeddings db).

(** The WHERE clause with the optional conjuncts. *)
Definition where_clause (min_score : Q) (tags_filter : option (list string))
           (verified_only : bool) (row : SearchRow) : bool :=
  Qle_bool min_score (row_similarity row)
  && (if verified_only then row_verified row else true)
  && match tags_filter with
     | Some (t :: ts) => array_overlap (row_tags row) (t :: ts)
     | _ => true
     end.

(** ORDER BY similarity DESC. *)
Definition similarity_desc (x y : SearchRow) : bool :=
  Qle_bool (row_similarity y) (row_similarity x).

Definition to_result (row : SearchRow) : AgentData * Q :=
  (mkAgentData (row_agent_id row) (row_agent_card row) (row_tags row)
               (row_verified row) (row_text_content row),
   row_similarity row).

(** The rows of [conn.fetch(base_query, *params)]: WHERE, ORDER BY
    similarity DESC, LIMIT. *)
Definition fetched_rows (db : Database) (query_embedding : vector) (top_k : Z)
           (min_score : Q) (tags_filter : option (list string))
           (verified_only : bool) : list SearchRow :=
  firstn (Z.to_nat top_k)
         (order_by similarity_desc
            (filter (where_clause min_score tags_filter verified_only)
                    (join_rows db query_embedding))).

(** [search_similar]. *)
Definition search_similar (db : Database) (query_embedding : vector)
           (top_k : Z) (min_score : Q) (tags_filter : option (list string))
           (verified_only : bool) : result DbError (list (AgentData * Q)) :=
  if (top_k <? 0)%Z then Raise InvalidRowCount
  else
    let rows := fetched_rows db query_embedding top_k min_score tags_filter
                             verified_only in
    Ok (map to_result rows).

(** [get_all_agents]: ORDER BY registered_at. *)
Definition get_all_agents (db : Database) : list AgentSnapshot :=
  map (fun r => mkAgentSnapshot (r_agent_id r) (r_agent_card r) (r_tags r))
      (order_by (fun x y => (r_registered_at x <=? r_registered_at y)%Z)
                (registry_entries db)).

End DatabaseService.

(* ================================================================= *)
(** ** [models.py]: request and response models *)

(** The [filters] dictionary of a search request. *)
Record Filters : Type := mkFilters {
  f_tags : option (list string);
  f_verified : option bool
}.

(** [class SemanticSearchRequest(BaseModel)]. *)
Record SemanticSearchRequest : Type := mkSemanticSearchRequest {
  query : string;
  top_k : Z;
  min_score : Q;
  filters : option Filters
}.

(** The constraints declared on [SemanticSearchRequest]:
    [top_k: ge=1, le=100] and [min_score: ge=0, le=1]; [query] is a
    required [str] with no constraint. *)
Definition validate_SemanticSearchRequest (r : SemanticSearchRequest) : bool :=
  (1 <=? top_k r)%Z && (top_k r <=? 100)%Z
  && Qle_bool 0 (min_score r) && Qle_bool (min_score r) 1.

(** [class SemanticSearchResult(BaseModel)]. *)
Record SemanticSearchResult : Type := mkSemanticSearchResult {
  res_agent_id : string;
  res_agent_card : AgentCard;
  res_tags : list string;
  res_verified : bool;
  similarity_score : Q;
  matched_on : string
}.

(** The constraint declared on [SemanticSearchResult]:
    [similarity_score: ge=0, le=1]. *)
Definition validate_SemanticSearchResult (r : SemanticSearchResult) : bool :=
  Qle_bool 0 (similarity_score r) && Qle_bool (similarity_score r) 1.

(** [class SemanticSearchResponse(BaseModel)], without the elapsed time. *)
Record SemanticSearchResponse : Type := mkSemanticSearchResponse {
  resp_query : string;
  results : list SemanticSearchResult;
  total : nat
}.

(** [class IndexAgentRequest(BaseModel)]. *)
Record IndexAgentRequest : Type := mkIndexAgentRequest {
  ia_agent_id : string;
  ia_agent_card : AgentCard;
  ia_tags : list string
}.

(** The dictionary returned by [index_agent]. *)
Record IndexAgentResponse : Type := mkIndexAgentResponse {
  ia_status : string;
  ia_resp_agent_id : string;
  ia_embedding_dimension : nat
}.

(** [class IndexAllResponse(BaseModel)], without the elapsed time. *)
Record IndexAllResponse : Type := mkIndexAllResponse {
  indexed_count : nat;
  failed_count : nat
}.

(* ================================================================= *)
(** ** [main.py]: the routes *)

(** What can be raised inside the [try] blocks of the routes. *)
Inductive Exception : Type :=
| EncodeError
| PydanticValidationError
| PostgresError (e : DbError).

(** What a route answers when it does not return. *)
Inductive HTTPError : Type :=
| HTTP422   (* request body rejected by its model *)
| HTTP500.  (* HTTPException(status_code=500) *)

Definition of_option {A} (e : Exception) (o : option A) : result Exception A :=
  match o with
  | Some a => Ok a
  | None => Raise e
  end.

Definition of_db {A} (r : result DbError A) : result Exception A :=
  match r with
  | Ok a => Ok a
  | Raise e => Raise (PostgresError e)
  end.

(** [try: ... except Exception: raise HTTPException(status_code=500)]. *)
Definition except_500 {A} (r : result Exception A) : result HTTPError A :=
  match r with
  | Ok a => Ok a
  | Raise _ => Raise HTTP500
  end.

Section Routes.
Context {backend : Backend}.

(** "Determine what matched" in [semantic_search]. *)
Definition determine_matched_on (request_query : string)
           (agent_data : AgentData) : string :=
  let agent_card_data := ad_agent_card agent_data in
  let query_lower := lower request_query in
  if contains query_lower (lower (get_default (cd_name agent_card_data) ""))
  then "name"
  else if existsb
            (fun s => contains query_lower (lower (get_default (sd_name s) "")))
            (cd_skills agent_card_data)
  then "skills"
  else if existsb (fun tag => contains query_lower (lower tag))
                  (ad_tags agent_data)
  then "tags"
  else "description".

(** One iteration of the "Format results" loop. *)
Definition format_result (request_query : string)
           (raw : AgentData * Q) : result Exception SemanticSearchResult :=
  let '(agent_data, similarity) := raw in
  let matched_on := determine_matched_on request_query agent_data in
  agent_card <- of_option PydanticValidationError
                  (validate_AgentCard (ad_agent_card agent_data)) ;;
  let r := mkSemanticSearchResult (ad_agent_id agent_data) agent_card
             (ad_tags agent_data) (ad_verified agent_data)
             (round4 similarity) matched_on in
  if validate_SemanticSearchResult r then Ok r
  else Raise PydanticValidationError.

Fixpoint format_results (request_query : string)
         (raw_results : list (AgentData * Q))
  : result Exception (list SemanticSearchResult) :=
  match raw_results with
  | [] => Ok []
  | raw :: rest =>
      r <- format_result request_query raw ;;
      rs <- format_results request_query rest ;;
      Ok (r :: rs)
  end.

(** "Extract filters": [request.filters.get("tags")] and
    [request.filters.get("verified", False)], [None] and [False] without
    filters. *)
Definition request_tags_filter (request : SemanticSearchRequest)
  : option (list string) :=
  match filters request with
  | Some f => f_tags f
  | None => None
  end.

Definition request_verified_only (request : SemanticSearchRequest) : bool :=
  match filters request with
  | Some f => match f_verified f with Some b => b | None => false end
  | None => false
  end.

(** The body of [semantic_search], for a request that passed its model. *)
Definition semantic_search (db : Database) (request : SemanticSearchRequest)
  : result HTTPError SemanticSearchResponse :=
  except_500 (
    query_embedding <- of_option EncodeError (embed_text (query request)) ;;
    let tags_filter := request_tags_filter request in
    let verified_only := request_verified_only request in
    raw_results <- of_db (search_similar db query_embedding (top_k request)
                            (min_score request) tags_filter verified_only) ;;
    results <- format_results (query request) raw_results ;;
    Ok (mkSemanticSearchResponse (query request) results (List.length results))).

(** POST /api/v1/semantic/search: the framework validates the body against
    [SemanticSearchRequest] and only then calls the handler. *)
Definition post_semantic_search (db : Database) (body : SemanticSearchRequest)
  : result HTTPError SemanticSearchResponse :=
  if validate_SemanticSearchRequest body then semantic_search db body
  else Raise HTTP422.

(** [text_content] of [index_agent]. *)
Definition index_agent_text_content (request : IndexAgentRequest) : string :=
  let card := ia_agent_card request in
  let text_parts := ["Agent: " ++ card_name card] in
  let text_parts :=
    match get_truthy (card_description card) with
    | Some description => list_append text_parts description
    | None => text_parts
    end in
  let text_parts :=
    fold_left (fun acc skill => list_append acc ("Skill: " ++ skill_name skill))
              (card_skills card) text_parts in
  let text_parts :=
    match ia_tags request with
    | [] => text_parts
    | tags => list_append text_parts ("Tags: " ++ join ", " tags)
    end in
  join " | " text_parts.

(** POST /api/v1/semantic/index, executed at time [now]. *)
Definition index_agent (db : Database) (now : Z) (request : IndexAgentRequest)
  : result HTTPError (Database * IndexAgentResponse) :=
  except_500 (
    let agent_card_dict := model_dump (ia_agent_card request) in
    embedding <- of_option EncodeError
                   (embed_agent agent_card_dict (Some (ia_tags request))) ;;
    let text_content := index_agent_text_content request in
    db' <- of_db (store_embedding db now (ia_agent_id request) embedding
                                  text_content) ;;
    Ok (db', mkIndexAgentResponse "indexed" (ia_agent_id request)
                                  (List.length embedding))).

(** [text_content] of [index_all_agents]. *)
Definition index_all_text_content (agent : AgentSnapshot) : string :=
  let card := as_agent_card agent in
  let text_parts := ["Agent: " ++ get_default (cd_name card) ""] in
  let text_parts :=
    match get_truthy (cd_description card) with
    | Some desc => list_append text_parts desc
    | None => text_parts
    end in
  let text_parts :=
    fold_left (fun acc skill =>
                 list_append acc ("Skill: " ++ get_default (sd_name skill) ""))
              (cd_skills card) text_parts in
  let text_parts :=
    match as_tags agent with
    | [] => text_parts
    | tags => list_append text_parts ("Tags: " ++ join ", " tags)
    end in
  join " | " text_parts.

(** The inner [try] block of [index_all_agents] for one agent. *)
Definition index_all_try (db : Database) (now : Z) (agent : AgentSnapshot)
  : result Exception Database :=
  embedding <- of_option EncodeError
                 (embed_agent (as_agent_card agent) (Some (as_tags agent))) ;;
  let text_content := index_all_text_content agent in
  of_db (store_embedding db now (as_agent_id agent) embedding text_content).

(** State of the loop: the database, [indexed_count], [failed_count]. *)
Definition index_all_body (now : Z) (st : Database * nat * nat)
           (agent : AgentSnapshot) : Database * nat * nat :=
  let '(db, indexed_count, failed_count) := st in
  match index_all_try db now agent with
  | Ok db' => (db', indexed_count + 1, failed_count)%nat
  | Raise _ => (db, indexed_count, failed_count + 1)%nat
  end.

(** POST /api/v1/semantic/index-all, executed at time [now]. *)
Definition index_all_agents (db : Database) (now : Z)
  : result HTTPError (Database * IndexAllResponse) :=
  except_500 (
    let agents := get_all_agents db in
    let '(db', indexed_count, failed_count) :=
      fold_left (index_all_body now) agents (db, 0%nat, 0%nat) in
    Ok (db', mkIndexAllResponse indexed_count failed_count)).

End Routes.

(* ================================================================= *)
(** ** [embeddings.py]: [compute_similarity], over the reals *)

Module Similarity.

Local Open Scope R_scope.

(** What numpy can signal in [compute_similarity]: [np.dot] refuses arrays
    whose shapes are not aligned (ValueError); a zero divisor is reported by
    the floating-point error state (a RuntimeWarning by default), and is an
    outcome here so that its absence can be stated. *)
Inductive NumpyError : Type :=
| ShapesNotAligned
| DivideByZero.

(** [np.dot] on one-dimensional arrays. *)
Fixpoint np_dot (a b : list R) : result NumpyError R :=
  match a, b with
  | [], [] => Ok 0
  | x :: a', y :: b' =>
      match np_dot a' b' with
      | Ok s => Ok (x * y + s)
      | Raise e => Raise e
      end
  | _, _ => Raise ShapesNotAligned
  end.

Definition sum_squares (a : list R) : R :=
  fold_right (fun x acc => x * x + acc) 0 a.

(** [np.linalg.norm] on a one-dimensional array. *)
Definition np_linalg_norm (a : list R) : R := sqrt (sum_squares a).

Definition np_divide (x y : R) : result NumpyError R :=
  if Req_dec_T y 0 then Raise DivideByZero else Ok (x / y).

(** Lines 141-145: the quotient and its clamp, [max(0.0, min(1.0, s))]. *)
Definition cosine_branch (embedding1 embedding2 : list R) (norm1 norm2 : R)
  : result NumpyError R :=
  match np_dot embedding1 embedding2 with
  | Ok d =>
      match np_divide d (norm1 * norm2) with
      | Ok similarity => Ok (Rmax 0 (Rmin 1 similarity))
      | Raise e => Raise e
      end
  | Raise e => Raise e
  end.

(** [EmbeddingService.compute_similarity]. *)
Definition compute_similarity (embedding1 embedding2 : list R)
  : result NumpyError R :=
  let norm1 := np_linalg_norm embedding1 in
  let norm2 := np_linalg_norm embedding2 in
  if Req_dec_T norm1 0 then Ok 0
  else if Req_dec_T norm2 0 then Ok 0
  else cosine_branch embedding1 embedding2 norm1 norm2.

End Similarity.

(* ================================================================= *)
(** ** The composed text as the specification words it *)

Module ComposerSpec.

(** A labelled segment that is present only for a non-empty value. *)
Definition optional_segment (label : string) (value : option string)
  : list string :=
  match value with
  | Some (String c s) => [label ++ String c s]
  | _ => []
  end.

(** "Skill: {skill.name}[ - {skill.description}]". *)
Definition skill_entry (skill : SkillData) : string :=
  match sd_name skill, sd_description skill with
  | Some n, Some (String c d) => "Skill: " ++ n ++ " - " ++ String c d
  | Some n, _ => "Skill: " ++ n
  | None, Some (String c d) => "Skill: " ++ " - " ++ String c d
  | None, _ => "Skill: "
  end.

Definition tags_segment (tags : option (list string)) : list string :=
  match tags with
  | Some (t :: ts) => ["Tags: " ++ join ", " (t :: ts)]
  | _ => []
  end.

(** The segments in the stated order. *)
Definition segments (card : AgentCardData) (tags : option (list string))
  : list string :=
  (optional_segment "Agent: " (cd_name card)
   ++ optional_segment "Description: " (cd_description card)
   ++ map skill_entry (cd_skills card)
   ++ tags_segment tags)%list.

(** The fixed placeholder. *)
Definition placeholder : string := "unknown".

(** The claim as stated: with no segment, the bare name, or the placeholder
    if the name is also empty. *)
Definition compose_spec (card : AgentCardData) (tags : option (list string))
  : string :=
  match segments card tags with
  | [] =>
      match cd_name card with
      | Some (String c s) => String c s
      | _ => placeholder
      end
  | segs => join " | " segs
  end.

(** The claim as amended: with no segment, the value of the [name] key when
    the card has one, the placeholder when it has none. *)
Definition compose_amended (card : AgentCardData) (tags : option (list string))
  : string :=
  match segments card tags with
  | [] =>
      match cd_name card with
      | Some n => n
      | None => placeholder
      end
  | segs => join " | " segs
  end.

End ComposerSpec.

(* ================================================================= *)
(** ** Vocabulary of the statements *)








(** The constraint [agent_id ... UNIQUE] of [agent_embeddings]. *)
Definition unique_agent_ids (db : Database) : Prop :=
  NoDup (map e_agent_id (agent_embeddings db)).

(** The embedding entries of an agent. *)
Definition entries_of (agent_id : string) (db : Database) : list EmbeddingRow :=
  filter (has_agent_id agent_id) (agent_embeddings db).

(** The [except] branch of the loop of [index_all_agents] is taken for
    [agent]. *)
Definition index_fails {backend : Backend} (db : Database) (now : Z)
           (agent : AgentSnapshot) : bool :=
  match index_all_try db now agent with
  | Ok _ => false
  | Raise _ => true
  end.

(** The checks of [store_embedding] that do not depend on the tables. *)
Definition storable (agent_id : string) (embedding : vector) : bool :=
  (String.length agent_id <=? 255)%nat
  && (List.length embedding =? embedding_dimension)%nat.

(** [agent_id] has an entry written at time [now] that holds the embedding
    and the text of an agent of [agents] with this id. *)
Definition indexed_entry {backend : Backend} (db : Database) (now : Z)
           (agents : list AgentSnapshot) (agent_id : string) : Prop :=
  exists row agent,
    In row (agent_embeddings db) /\ In agent agents
    /\ as_agent_id agent = agent_id /\ e_agent_id row = agent_id
    /\ embed_agent (as_agent_card agent) (Some (as_tags agent))
       = Some (e_embedding row)
    /\ e_text_content row = index_all_text_content agent
    /\ e_updated_at row = now.

Definition result_map {E A B} (g : A -> B) (r : result E A) : result E B :=
  match r with
  | Ok a => Ok (g a)
  | Raise e => Raise e
  end.

(* ================================================================= *)
(** ** Concrete collaborators and databases for the examples *)

Module Examples.

(** Square root of a rational that is the square of a rational. *)
Definition exact_sqrt (q : Q) : Q :=
  let r := Qred q in
  Qmake (Z.sqrt (Qnum r)) (Pos.sqrt (Qden r)).

Fixpoint dot (a b : vector) : Q :=
  match a, b with
  | x :: a', y :: b' => x * y + dot a' b'
  | _, _ => 0
  end.

(** Cosine distance, exact on vectors whose norms are rational. *)
Definition rational_cosine_distance (a b : vector) : Q :=
  Qred (1 - dot a b / (exact_sqrt (dot a a) * exact_sqrt (dot b b))).

(** A vector of the table's dimension from its leading coordinates. *)
Definition pad (v : vector) : vector :=
  (v ++ repeat 0 (embedding_dimension - List.length v))%list.

Definition unit_x : vector := pad [1].

(** A model that embeds every text as [unit_x] and raises on the texts
    selected by [fails]. *)
Definition stub_backend (fails : string -> bool) : Backend :=
  {| encode := fun text => if fails text then None else Some unit_x;
     cosine_distance := rational_cosine_distance |}.

Definition example_backend : Backend := stub_backend (fun _ => false).

Definition translator_card : AgentCardData :=
  mkAgentCardData (Some "translator-agent") (Some "Translates documents")
                  (Some "http://translator.local")
                  [mkSkillData (Some "translate") None].

Definition summarizer_card : AgentCardData :=
  mkAgentCardData (Some "summarizer-agent") None
                  (Some "http://summarizer.local")
                  [mkSkillData (Some "summarize") (Some "Shortens text")].

Definition broken_card : AgentCardData :=
  mkAgentCardData (Some "broken-agent") None (Some "http://broken.local") [].

(** One agent whose stored vector has cosine 5/13 with [unit_x]. *)
Definition db_5_13 : Database :=
  mkDatabase
    [mkRegistryRow "translator-agent" translator_card ["nlp"] true 1]
    [mkEmbeddingRow 1 "translator-agent" (pad [5 # 13; 12 # 13])
                    "Agent: translator-agent" 1 1]
    2.

Definition request_5_13 : SemanticSearchRequest :=
  mkSemanticSearchRequest "translate text" 5 (38461 # 100000) None.

(** Two agents with the same stored vector, "agent-b" written first. *)
Definition db_tie : Database :=
  mkDatabase
    [mkRegistryRow "agent-b" translator_card ["nlp"] true 1;
     mkRegistryRow "agent-a" summarizer_card ["nlp"] true 2]
    [mkEmbeddingRow 1 "agent-b" unit_x "Agent: translator-agent" 1 1;
     mkEmbeddingRow 2 "agent-a" unit_x "Agent: summarizer-agent" 2 2]
    3.

Definition request_tie : SemanticSearchRequest :=
  mkSemanticSearchRequest "agent" 10 (1 # 2) None.

Definition request_empty_query : SemanticSearchRequest :=
  mkSemanticSearchRequest "" 10 (1 # 2) None.

Definition request_top_k_0 : SemanticSearchRequest :=
  mkSemanticSearchRequest "agent" 0 (1 # 2) None.

(** A directory of three agents and no embedding yet. *)
Definition db_three : Database :=
  mkDatabase
    [mkRegistryRow "agent-1" translator_card ["nlp"] true 1;
     mkRegistryRow "agent-2" broken_card [] false 2;
     mkRegistryRow "agent-3" summarizer_card ["nlp"; "text"] false 3]
    [] 1.

(** The model raises on the text of the broken agent. *)
Definition backend_one_failure : Backend :=
  stub_backend (contains "broken-agent").

Definition index_request : IndexAgentRequest :=
  mkIndexAgentRequest "agent-1"
    (mkAgentCard "translator-agent" (Some "Translates documents")
                 "http://translator.local" [mkSkill "translate" None])
    ["nlp"].

(** A card whose [name] key holds the empty string. *)
Definition empty_name_card : AgentCardData :=
  mkAgentCardData (Some "") None (Some "http://nameless.local") [].

End Examples.

(* ================================================================= *)
(** ** Vocabulary of the further properties *)

(** The primary key [id SERIAL PRIMARY KEY]: the ids of the rows are
    pairwise distinct and below the next value of the sequence. *)
Definition serial_key_ok (db : Database) : Prop :=
  NoDup (map e_id (agent_embeddings db))
  /\ Forall (fun e => (e_id e < agent_embeddings_id_seq db)%Z)
            (agent_embeddings db).

(** The entries of the agents other than [agent_id]. *)
Definition entries_of_others (agent_id : string) (db : Database)
  : list EmbeddingRow :=
  filter (fun e => negb (has_agent_id agent_id e)) (agent_embeddings db).

(** The dictionary that [get_all_agents] yields for an agent whose registry
    row holds the dumped card and the tags of an index request. *)
Definition snapshot_of_request (request : IndexAgentRequest) : AgentSnapshot :=
  mkAgentSnapshot (ia_agent_id request) (model_dump (ia_agent_card request))
                  (ia_tags request).

(** Number of characters that the descriptions add to the embedded text:
    "Description: " before the description of the card, and " - " and the
    description after the name of each skill that has one. *)
Definition skill_overhead (skill : SkillData) : nat :=
  match get_truthy (sd_description skill) with
  | Some d => 3 + String.length d
  | None => 0
  end.

Definition description_overhead (card : AgentCardData) : nat :=
  ((match get_truthy (cd_description card) with
    | Some _ => 13
    | None => 0
    end)
   + list_sum (map skill_overhead (cd_skills card)))%nat.

(** The parts of the text that the index routes store. *)
Definition stored_skill (skill : SkillData) : string :=
  "Skill: " ++ get_default (sd_name skill) "".

Definition stored_description (card : AgentCardData) : list string :=
  match get_truthy (cd_description card) with
  | Some desc => [desc]
  | None => []
  end.

Definition stored_parts (agent : AgentSnapshot) : list string :=
  let card := as_agent_card agent in
  let head : string := "Agent: " ++ get_default (cd_name card) "" in
  (head :: stored_description card
        ++ map stored_skill (cd_skills card)
        ++ ComposerSpec.tags_segment (Some (as_tags agent)))%list.

(* ================================================================= *)
(** ** Service singletons ([database.py], [embeddings.py], [main.py])

    The calls that leave the process are answered by a [World]: each field
    says whether the call returns ([true]) or raises ([false]) at the moment
    it is made.  Module-level variables and object attributes are passed
    explicitly. *)

Module Lifecycle.

Record World : Type := mkWorld {
  create_pool_ok : bool;     (* asyncpg.create_pool *)
  setup_ok : bool;           (* the statements of _setup_vector_table *)
  select_1_ok : bool;        (* pool.acquire and fetchval("SELECT 1") *)
  redis_from_url_ok : bool;  (* redis.from_url *)
  redis_ping_ok : bool;      (* ping *)
  model_load_ok : bool       (* SentenceTransformer(model_name) *)
}.

Inductive ServiceError : Type :=
| PoolError
| SetupError
| ModelError.

(** An asyncpg pool, as far as the service can tell pools apart. *)
Record Pool : Type := mkPool { pool_closed : bool }.

(** A [DatabaseService] object: its attribute [_pool]. *)
Record DatabaseServiceObject : Type := mkDatabaseService {
  _pool : option Pool
}.

(** [DatabaseService.connect]: the object after the call and the outcome. *)
Definition connect (w : World) (self : DatabaseServiceObject)
  : DatabaseServiceObject * result ServiceError unit :=
  if create_pool_ok w then
    let self := mkDatabaseService (Some (mkPool false)) in
    if setup_ok w then (self, Ok tt) else (self, Raise SetupError)
  else (self, Raise PoolError).

(** [DatabaseService.disconnect]. *)
Definition disconnect (self : DatabaseServiceObject) : DatabaseServiceObject :=
  match _pool self with
  | Some _ => mkDatabaseService (Some (mkPool true))
  | None => self
  end.

(** [DatabaseService.is_connected]: a closed pool refuses [acquire], which
    the method catches. *)
Definition is_connected (w : World) (self : DatabaseServiceObject) : bool :=
  match _pool self with
  | None => false
  | Some pool => if pool_closed pool then false else select_1_ok w
  end.

(** A Redis client object. *)
Inductive RedisClient : Type := redis_client.

(** The module-level variables [_db_service] and [_redis_client]. *)
Record Globals : Type := mkGlobals {
  _db_service : option DatabaseServiceObject;
  _redis_client : option RedisClient
}.

Definition fresh : Globals := mkGlobals None None.

(** [get_database_service]: the variable is assigned before [connect] is
    awaited. *)
Definition get_database_service (w : World) (g : Globals)
  : Globals * result ServiceError DatabaseServiceObject :=
  match _db_service g with
  | None =>
      let '(service, outcome) := connect w (mkDatabaseService None) in
      (mkGlobals (Some service) (_redis_client g),
       match outcome with
       | Ok _ => Ok service
       | Raise e => Raise e
       end)
  | Some service => (g, Ok service)
  end.

(** [close_database_service]: the variables after the call, and the object
    that was disconnected, if any. *)
Definition close_database_service (g : Globals)
  : Globals * option DatabaseServiceObject :=
  match _db_service g with
  | Some service =>
      (mkGlobals None (_redis_client g), Some (disconnect service))
  | None => (g, None)
  end.

(** [get_redis]. *)
Definition get_redis (w : World) (g : Globals)
  : Globals * option RedisClient :=
  match _redis_client g with
  | None =>
      if redis_from_url_ok w && redis_ping_ok w
      then (mkGlobals (_db_service g) (Some redis_client), Some redis_client)
      else (mkGlobals (_db_service g) None, None)
  | Some client => (g, Some client)
  end.

(** [class HealthResponse(BaseModel)]: the fields that are computed. *)
Record HealthResponse : Type := mkHealthResponse {
  status : string;
  database_connected : bool;
  redis_connected : bool
}.

(** GET /health. *)
Definition health_check (w : World) (g : Globals) : Globals * HealthResponse :=
  let '(g, db) := get_database_service w g in
  let db_connected :=
    match db with
    | Ok db => is_connected w db
    | Raise _ => false
    end in
  let '(g, client) := get_redis w g in
  let redis_connected :=
    match client with
    | Some _ => redis_ping_ok w
    | None => false
    end in
  (g, mkHealthResponse (if db_connected then "healthy" else "degraded")
                       db_connected redis_connected).

(** A loaded sentence-transformer. *)
Record Model : Type := mkModel { loaded_from : string }.

(** An [EmbeddingService] object. *)
Record EmbeddingServiceObject : Type := mkEmbeddingService {
  model_name : string;
  _model : option Model
}.

(** The two messages that the [model] property logs. *)
Inductive LogRecord : Type :=
| LoadingModel (name : string)
| ModelLoaded (name : string).

(** The property [EmbeddingService.model]: the object and the log after the
    access, and what the access yields. *)
Definition model (w : World) (self : EmbeddingServiceObject)
           (log : list LogRecord)
  : EmbeddingServiceObject * list LogRecord * result ServiceError Model :=
  match _model self with
  | None =>
      let log := list_append log (LoadingModel (model_name self)) in
      if model_load_ok w then
        let m := mkModel (model_name self) in
        (mkEmbeddingService (model_name self) (Some m),
         list_append log (ModelLoaded (model_name self)),
         Ok m)
      else (self, log, Raise ModelError)
  | Some m => (self, log, Ok m)
  end.

(** Successive accesses to [model], one per world of the list. *)
Definition model_accesses (ws : list World) (self : EmbeddingServiceObject)
           (log : list LogRecord) : EmbeddingServiceObject * list LogRecord :=
  fold_left (fun st w => fst (model w (fst st) (snd st))) ws (self, log).

(** The startup part of [lifespan]: the model is loaded, the database is
    connected inside a [try], Redis is connected. *)
Definition startup (w : World) (g : Globals) (service : EmbeddingServiceObject)
           (log : list LogRecord)
  : result ServiceError (Globals * EmbeddingServiceObject * list LogRecord) :=
  let '(service, log, loaded) := model w service log in
  match loaded with
  | Raise e => Raise e
  | Ok _ =>
      let g := fst (get_database_service w g) in
      let g := fst (get_redis w g) in
      Ok (g, service, log)
  end.

(** The answers of successive health checks, one per world of the list. *)
Fixpoint health_checks (ws : list World) (g : Globals) : list HealthResponse :=
  match ws with
  | [] => []
  | w :: ws' =>
      let '(g', response) := health_check w g in
      response :: health_checks ws' g'
  end.

Definition is_model_loaded (r : LogRecord) : bool :=
  match r with
  | ModelLoaded _ => true
  | LoadingModel _ => false
  end.

End Lifecycle.

(* ================================================================= *)
(** ** The Python client ([registry-python-client/src/a2a_registry]) *)

Module Client.

(** [str(n)] for an integer. *)
Definition string_of_Z (z : Z) : string := NilZero.string_of_int (Z.to_int z).

(** [s.rstrip(ch)] for a one-character argument. *)
Fixpoint rstrip (ch : ascii) (s : string) : string :=
  match s with
  | EmptyString => EmptyString
  | String c s' =>
      match rstrip ch s' with
      | EmptyString => if Ascii.eqb c ch then EmptyString else String c EmptyString
      | String c' r => String c (String c' r)
      end
  end.

(** [ch * n]. *)
Fixpoint repeat_char (ch : ascii) (n : nat) : string :=
  match n with
  | O => EmptyString
  | S n' => String ch (repeat_char ch n')
  end.

(** A [RegistryClient] object. *)
Record RegistryClient : Type := mkRegistryClient {
  base_url : string;
  timeout : Q;
  api_key : option string;
  _headers : list (string * string)
}.

(** [RegistryClient.__init__]. *)
Definition init (base_url : string) (timeout : Q) (api_key : option string)
  : RegistryClient :=
  let _headers :=
    [("Content-Type", "application/json"); ("Accept", "application/json")] in
  let _headers :=
    match get_truthy api_key with
    | Some key => list_append _headers ("Authorization", "Bearer " ++ key)
    | None => _headers
    end in
  mkRegistryClient (rstrip "/" base_url) timeout api_key _headers.

Section Responses.

(** The keys of a JSON object other than [agent_id] and [message]. *)
Variable P : Type.

(** What [response.json()] returns when it returns. *)
Inductive Json : Type :=
| JsonObject (agent_id message : option string) (rest : P)
| JsonOther.

(** An [httpx.Response]: [json] is [None] when [response.json()] raises. *)
Record Response : Type := mkResponse {
  status_code : Z;
  json : option Json;
  text : string
}.

(** [response.is_success]: the status is 2xx. *)
Definition is_success (r : Response) : bool :=
  (200 <=? status_code r)%Z && (status_code r <=? 299)%Z.

(** The value [data] of [_handle_response]. *)
Inductive Data : Type :=
| DataObject (agent_id message : option string) (rest : option P)
| DataOther.

(** The exceptions of [exceptions.py], and [OtherException] for an exception
    that is not a [RegistryError]. *)
Inductive ClientError : Type :=
| RegistryError (message : string) (status : option Z)
| AgentNotFoundError (agent_id : string)
| AgentAlreadyExistsError (agent_id : string)
| ValidationError (message : string) (details : Data)
| ConnectionError (message : string)
| SemanticSearchError (message : string)
| OtherException (what : string).

(** The attribute [message] set by the constructors. *)
Definition error_message (e : ClientError) : string :=
  match e with
  | RegistryError m _ => m
  | AgentNotFoundError id => "Agent not found: " ++ id
  | AgentAlreadyExistsError id => "Agent already exists: " ++ id
  | ValidationError m _ => m
  | ConnectionError m => m
  | SemanticSearchError m => "Semantic search failed: " ++ m
  | OtherException what => what
  end.

(** The attribute [status_code] set by the constructors. *)
Definition error_status_code (e : ClientError) : option Z :=
  match e with
  | RegistryError _ status => status
  | AgentNotFoundError _ => Some 404%Z
  | AgentAlreadyExistsError _ => Some 409%Z
  | ValidationError _ _ => Some 400%Z
  | ConnectionError _ => None
  | SemanticSearchError _ => Some 500%Z
  | OtherException _ => None
  end.

(** [isinstance(e, RegistryError)]. *)
Definition is_registry_error (e : ClientError) : bool :=
  match e with
  | OtherException _ => false
  | _ => true
  end.

(** [data = response.json()], or [{"message": response.text}]. *)
Definition response_data (r : Response) : Data :=
  match json r with
  | Some (JsonObject a m rest) => DataObject a m (Some rest)
  | Some JsonOther => DataOther
  | None => DataObject None (Some (text r)) None
  end.

(** [data.get("agent_id", default)]: only an object has [get]. *)
Definition data_get_agent_id (data : Data) (default : string)
  : result ClientError string :=
  match data with
  | DataObject a _ _ => Ok (get_default a default)
  | DataOther => Raise (OtherException "AttributeError")
  end.

(** [data.get("message", default)]. *)
Definition data_get_message (data : Data) (default : string)
  : result ClientError string :=
  match data with
  | DataObject _ m _ => Ok (get_default m default)
  | DataOther => Raise (OtherException "AttributeError")
  end.

(** [RegistryClient._handle_response]. *)
Definition _handle_response (r : Response) : result ClientError Data :=
  let data := response_data r in
  let code := status_code r in
  if (code =? 404)%Z then
    Py.bind (data_get_agent_id data "unknown")
            (fun id => Raise (AgentNotFoundError id))
  else if (code =? 409)%Z then
    Py.bind (data_get_agent_id data "unknown")
            (fun id => Raise (AgentAlreadyExistsError id))
  else if (code =? 400)%Z then
    Py.bind (data_get_message data "Validation failed")
            (fun m => Raise (ValidationError m data))
  else if (500 <=? code)%Z then
    Py.bind (data_get_message data "Server error")
            (fun m => Raise (RegistryError m (Some code)))
  else if negb (is_success r) then
    Py.bind (data_get_message data
               ("Request failed with status " ++ string_of_Z code))
            (fun m => Raise (RegistryError m (Some code)))
  else Ok data.

(** What a call of the HTTP client comes to: [httpx.ConnectError], another
    exception of the transport, or a response. *)
Inductive Transport : Type :=
| ConnectError (what : string)
| TransportError (what : string)
| Responded (r : Response).

(** [RegistryClient.delete_agent]. *)
Definition delete_agent (agent_id : string) (t : Transport)
  : result ClientError unit :=
  match t with
  | ConnectError what =>
      Raise (ConnectionError ("Failed to connect to registry: " ++ what))
  | TransportError what => Raise (OtherException what)
  | Responded r =>
      if (status_code r =? 404)%Z then Raise (AgentNotFoundError agent_id)
      else if negb (is_success r) then
        match _handle_response r with
        | Raise e => Raise e
        | Ok _ => Ok tt
        end
      else Ok tt
  end.

(** The results of the response model. *)
Variable R : Type.

(** The [results] of the [SemanticSearchResponse] built from [data], or the
    text of the exception that the model raises. *)
Variable parse_results : Data -> result string (list R).

(** [RegistryClient.semantic_search], from the answer of the POST on. *)
Definition semantic_search (t : Transport) : result ClientError (list R) :=
  match t with
  | ConnectError what =>
      Raise (ConnectionError ("Failed to connect to registry: " ++ what))
  | TransportError what => Raise (SemanticSearchError what)
  | Responded r =>
      match _handle_response r with
      | Raise (OtherException what) => Raise (SemanticSearchError what)
      | Raise e => Raise e
      | Ok data =>
          match parse_results data with
          | Ok results => Ok results
          | Raise what => Raise (SemanticSearchError what)
          end
      end
  end.

End Responses.

(** The JSON payload that [semantic_search] posts; it has the shape of the
    request model of the search route. *)
Definition search_payload (query : string) (top_k : Z) (min_score : Q)
           (tags : option (list string)) (verified_only : bool)
  : SemanticSearchRequest :=
  let filters_tags :=
    match tags with
    | Some (t :: ts) => Some (t :: ts)
    | _ => None
    end in
  let filters_verified := if verified_only then Some true else None in
  mkSemanticSearchRequest query top_k min_score
    match filters_tags, filters_verified with
    | None, None => None
    | _, _ => Some (mkFilters filters_tags filters_verified)
    end.

(** [class Capabilities(BaseModel)]. *)
Record Capabilities : Type := mkCapabilities {
  streaming : bool;
  push_notifications : bool
}.

(** [class AgentCard(BaseModel)] of the client. *)
Record ClientAgentCard : Type := mkClientAgentCard {
  c_name : string;
  c_description : option string;
  c_endpoint : string;
  c_protocol_version : string;
  c_capabilities : option Capabilities;
  c_skills : list Skill
}.

(** The dictionary built by [to_api_dict]: [None] is an absent key. *)
Record ApiDict : Type := mkApiDict {
  api_name : option string;
  api_endpoint : option string;
  api_protocolVersion : option string;
  api_description : option string;
  api_capabilities : option (bool * bool);
  api_skills : option (list SkillData)
}.

(** [AgentCard.to_api_dict]. *)
Definition to_api_dict (self : ClientAgentCard) : ApiDict :=
  mkApiDict
    (Some (c_name self)) (Some (c_endpoint self))
    (Some (c_protocol_version self))
    (get_truthy (c_description self))
    (match c_capabilities self with
     | Some c => Some (streaming c, push_notifications c)
     | None => None
     end)
    (match c_skills self with
     | [] => None
     | skills =>
         Some (map (fun s => mkSkillData (Some (skill_name s))
                                         (get_truthy (skill_description s)))
                   skills)
     end).

(** The keys of such a dictionary that the search service reads when it is
    the [agent_card] of a registry row: [get("skills", [])] and the like. *)
Definition card_data_of_api (d : ApiDict) : AgentCardData :=
  mkAgentCardData (api_name d) (api_description d) (api_endpoint d)
                  (match api_skills d with
                   | Some skills => skills
                   | None => []
                   end).

(** The card model of the search service with the fields of a client card. *)
Definition server_card (c : ClientAgentCard) : AgentCard :=
  mkAgentCard (c_name c) (c_description c) (c_endpoint c) (c_skills c).

End Client.

(* ================================================================= *)
(** * Properties *)

Unset Implicit Arguments.

(** ** Lists and strings *)

Lemma fold_left_list_append :
  forall (A B : Type) (f : A -> B) (l : list A) (init : list B),
    fold_left (fun acc x => list_append acc (f x)) l init
    = (init ++ map f l)%list.
Proof.
  induction l as [|x l IH]; intros init; simpl.
  - now rewrite app_nil_r.
  - rewrite IH. unfold list_append. now rewrite <- app_assoc.
Qed.


Lemma contains_unfold :
  forall needle hay,
    contains needle hay
    = startswith needle hay
      || match hay with
         | EmptyString => false
         | String _ hay' => contains needle hay'
         end.
Proof. intros needle [|c hay]; reflexivity. Qed.




(** ** Rounding *)

Lemma round_half_even_spec :
  forall n d,
    let z := round_half_even n d in
    (2 * n - Zpos d <= 2 * z * Zpos d <= 2 * n + Zpos d)%Z
    /\ ((2 * z * Zpos d = 2 * n + Zpos d)%Z -> Z.even z = true)
    /\ ((2 * z * Zpos d = 2 * n - Zpos d)%Z -> Z.even z = true).
Proof.
  intros n d. unfold round_half_even.
  pose proof (Z.div_mod n (Zpos d) ltac:(lia)) as Hdm.
  pose proof (Z.mod_pos_bound n (Zpos d) ltac:(lia)) as Hr.
  set (fl := (n / Zpos d)%Z) in *. set (r := (n mod Zpos d)%Z) in *.
  destruct (2 * r ?= Zpos d)%Z eqn:C.
  - apply Z.compare_eq in C.
    destruct (Z.even fl) eqn:Ev; cbv zeta.
    + repeat split; try nia. intros _. exact Ev.
    + repeat split; try nia. intros _.
      replace (fl + 1)%Z with (Z.succ fl) by lia.
      rewrite Z.even_succ, <- Z.negb_even, Ev. reflexivity.
  - rewrite Z.compare_lt_iff in C. cbv zeta. repeat split; nia.
  - rewrite Z.compare_gt_iff in C. cbv zeta. repeat split; nia.
Qed.

Lemma round_half_even_monotone :
  forall n1 d1 n2 d2,
    (n1 * Zpos d2 <= n2 * Zpos d1)%Z ->
    (round_half_even n1 d1 <= round_half_even n2 d2)%Z.
Proof.
  intros n1 d1 n2 d2 H.
  destruct (round_half_even_spec n1 d1) as ([_ U1] & T1 & _).
  destruct (round_half_even_spec n2 d2) as ([L2 _] & _ & T2).
  set (z1 := round_half_even n1 d1) in *.
  set (z2 := round_half_even n2 d2) in *.
  cbv zeta in *.
  destruct (Z_le_gt_dec z1 z2) as [|G]; [assumption | exfalso].
  assert (P : (0 < Zpos d1 * Zpos d2)%Z) by lia.
  assert (A : ((2 * z1 - 1) * (Zpos d1 * Zpos d2)
               <= (2 * z2 + 1) * (Zpos d1 * Zpos d2))%Z) by nia.
  assert (E : z1 = (z2 + 1)%Z) by nia.
  assert (E1 : (2 * z1 * Zpos d1 = 2 * n1 + Zpos d1)%Z) by nia.
  assert (E2 : (2 * z2 * Zpos d2 = 2 * n2 - Zpos d2)%Z) by nia.
  specialize (T1 E1). specialize (T2 E2).
  rewrite E in T1. replace (z2 + 1)%Z with (Z.succ z2) in T1 by lia.
  rewrite Z.even_succ, <- Z.negb_even, T2 in T1. discriminate.
Qed.

Lemma round4_monotone : forall x y : Q, x <= y -> round4 x <= round4 y.
Proof.
  intros x y H. unfold round4, Qle in *. simpl.
  apply Z.mul_le_mono_nonneg_r; [lia|].
  apply round_half_even_monotone. nia.
Qed.

(** The rounded value is at most half a unit of the fourth digit below. *)
Lemma round4_lower : forall x : Q, x - (1 # 20000) <= round4 x.
Proof.
  intros x.
  destruct (round_half_even_spec (Qnum x * 10000) (Qden x)) as ([L _] & _ & _).
  cbv zeta in L. unfold round4, Qle, Qminus, Qplus, Qopp. simpl.
  set (z := round_half_even (Qnum x * 10000) (Qden x)) in *.
  rewrite Pos2Z.inj_mul. nia.
Qed.


(** ** ORDER BY *)

Section OrderBy.
Variable A : Type.
Variable before : A -> A -> bool.

Lemma insert_by_perm :
  forall x l, Permutation (insert_by before x l) (x :: l).
Proof.
  induction l as [|y l IH]; simpl; [reflexivity|].
  destruct (before x y); [reflexivity|].
  rewrite IH. apply perm_swap.
Qed.

Lemma order_by_perm : forall l, Permutation (order_by before l) l.
Proof.
  induction l as [|x l IH]; simpl; [reflexivity|].
  rewrite insert_by_perm. now constructor.
Qed.

Lemma order_by_length : forall l, List.length (order_by before l) = List.length l.
Proof. intros l. apply Permutation_length, order_by_perm. Qed.

Lemma order_by_In : forall x l, In x (order_by before l) <-> In x l.
Proof.
  intros x l; split; apply Permutation_in;
    [apply order_by_perm | symmetry; apply order_by_perm].
Qed.

Hypothesis before_total : forall x y, before x y = false -> before y x = true.
Hypothesis before_trans :
  forall x y z, before x y = true -> before y z = true -> before x z = true.

Lemma insert_by_sorted :
  forall x l,
    StronglySorted (fun a b => before a b = true) l ->
    StronglySorted (fun a b => before a b = true) (insert_by before x l).
Proof.
  induction l as [|y l IH]; simpl; intros S.
  - constructor; constructor.
  - inversion S as [|? ? S' F]; subst.
    destruct (before x y) eqn:E.
    + constructor; [assumption|]. constructor; [assumption|].
      eapply Forall_impl; [|exact F]. intros z Hz. eauto.
    + constructor; [auto|].
      eapply Permutation_Forall; [symmetry; apply insert_by_perm|].
      constructor; auto.
Qed.

Lemma order_by_sorted :
  forall l, StronglySorted (fun a b => before a b = true) (order_by before l).
Proof.
  induction l as [|x l IH]; simpl; [constructor|].
  now apply insert_by_sorted.
Qed.

End OrderBy.



Lemma StronglySorted_firstn :
  forall (A : Type) (R : A -> A -> Prop) n l,
    StronglySorted R l -> StronglySorted R (firstn n l).
Proof.
  intros A R n. induction n as [|n IH]; intros l S; simpl; [constructor|].
  destruct l as [|x l]; [constructor|].
  inversion S as [|? ? S' F]; subst. constructor; [auto|].
  rewrite Forall_forall in *. intros y Hy. apply F.
  revert Hy. clear. revert l. induction n; simpl; intros [|z l] H;
    simpl in *; try contradiction; intuition.
Qed.

Lemma StronglySorted_impl :
  forall (A : Type) (R R' : A -> A -> Prop) l,
    (forall x y, R x y -> R' x y) ->
    StronglySorted R l -> StronglySorted R' l.
Proof.
  intros A R R' l H. induction 1 as [|x l S IH F]; constructor; auto.
  eapply Forall_impl; [|exact F]. auto.
Qed.

Lemma StronglySorted_map :
  forall (A B : Type) (g : A -> B) (R : B -> B -> Prop) l,
    StronglySorted (fun x y => R (g x) (g y)) l -> StronglySorted R (map g l).
Proof.
  intros A B g R l. induction 1 as [|x l S IH F]; simpl; constructor; auto.
  rewrite Forall_map. exact F.
Qed.

Lemma similarity_desc_total :
  forall x y, similarity_desc x y = false -> similarity_desc y x = true.
Proof.
  intros x y. unfold similarity_desc, Qle_bool. rewrite Z.leb_gt, Z.leb_le. lia.
Qed.

Lemma similarity_desc_trans :
  forall x y z,
    similarity_desc x y = true -> similarity_desc y z = true ->
    similarity_desc x z = true.
Proof.
  intros x y z. unfold similarity_desc. rewrite !Qle_bool_iff.
  intros H1 H2. eapply Qle_trans; eassumption.
Qed.

(** ** The composed text ([embed_agent]) *)

Lemma skill_text_entry :
  forall skill, skill_text skill = ComposerSpec.skill_entry skill.
Proof.
  intros [[n|] [[|c d]|]]; reflexivity.
Qed.

Lemma text_parts_segments :
  forall card tags, text_parts card tags = ComposerSpec.segments card tags.
Proof.
  intros card tags. unfold text_parts, ComposerSpec.segments.
  rewrite fold_left_list_append.
  rewrite (map_ext _ _ skill_text_entry).
  assert (T : forall l : list string,
             match tags with
             | Some (t :: ts) => list_append l ("Tags: " ++ join ", " (t :: ts))
             | _ => l
             end = (l ++ ComposerSpec.tags_segment tags)%list).
  { intros l. destruct tags as [[|t ts]|]; simpl;
      try (now rewrite app_nil_r); reflexivity. }
  rewrite T, <- !app_assoc.
  rewrite (app_assoc (ComposerSpec.optional_segment "Agent: " (cd_name card))).
  f_equal.
  destruct (cd_name card) as [[|c n]|], (cd_description card) as [[|c' d]|];
    reflexivity.
Qed.

(** C3 (as amended).  The text embedded for an agent is made of the
    segments "Agent: name" (for a non-empty name), "Description: description"
    (for a non-empty description), one "Skill: name[ - description]" per
    skill in the listed order and "Tags: t1, t2, ..." (for a non-empty tag
    list), joined with " | ".  When no segment applies the text is the value
    of the name key if the card has one (then the empty string), and the
    placeholder "unknown" if the card has no name key.  The text depends on
    the card and the tags only. *)
Theorem C3_combined_text_composition :
  forall card tags,
    combined_text card tags = ComposerSpec.compose_amended card tags
    /\ match ComposerSpec.segments card tags, cd_name card with
       | [], Some n => n = "" /\ combined_text card tags = ""
       | [], None => combined_text card tags = "unknown"
       | seg :: segs, _ => combined_text card tags = join " | " (seg :: segs)
       end.
Proof.
  intros card tags.
  unfold combined_text, ComposerSpec.compose_amended.
  rewrite text_parts_segments.
  split; [reflexivity|].
  destruct (ComposerSpec.segments card tags) as [|seg segs] eqn:S;
    [|reflexivity].
  unfold ComposerSpec.segments in S.
  destruct (cd_name card) as [[|c n]|]; simpl in *;
    first [discriminate | auto].
Qed.

(** C3 as stated fails on a card whose name is the empty string and that
    has nothing else: the text is the empty string, not the placeholder. *)
Lemma C3_empty_name_counterexample :
  combined_text Examples.empty_name_card (Some []) = ""
  /\ ComposerSpec.compose_spec Examples.empty_name_card (Some []) = "unknown"
  /\ combined_text Examples.empty_name_card (Some [])
     <> ComposerSpec.compose_spec Examples.empty_name_card (Some []).
Proof.
  repeat split; try reflexivity. discriminate.
Qed.

(** ** Request validation *)

Lemma except_500_not_422 :
  forall (A : Type) (r : result Exception A), except_500 r <> Raise HTTP422.
Proof. intros A [a|e]; discriminate. Qed.

Lemma validate_SemanticSearchRequest_spec :
  forall r,
    validate_SemanticSearchRequest r = false
    <-> ((top_k r < 1)%Z \/ (100 < top_k r)%Z
         \/ min_score r < 0 \/ 1 < min_score r).
Proof.
  intros r. unfold validate_SemanticSearchRequest.
  rewrite !andb_false_iff, !Z.leb_gt.
  rewrite <- !not_true_iff_false, !Qle_bool_iff.
  split.
  - intros [[[H | H] | H] | H]; auto.
    + right; right; left. now apply Qnot_le_lt.
    + right; right; right. now apply Qnot_le_lt.
  - intros [H | [H | [H | H]]]; auto.
    + left; right. now apply Qlt_not_le.
    + right. now apply Qlt_not_le.
Qed.

(** C6 (as amended).  Whatever the model and the database, the search route
    answers with the validation error exactly when [top_k] is outside
    [1, 100] or [min_score] is outside [0, 1]; the query text plays no part,
    so an empty query is not rejected. *)
Theorem C6_request_validation :
  forall (backend : Backend) (db : Database) (body : SemanticSearchRequest),
    post_semantic_search db body = Raise HTTP422
    <-> ((top_k body < 1)%Z \/ (100 < top_k body)%Z
         \/ min_score body < 0 \/ 1 < min_score body).
Proof.
  intros backend db body. rewrite <- validate_SemanticSearchRequest_spec.
  unfold post_semantic_search.
  destruct (validate_SemanticSearchRequest body).
  - split; [|discriminate]. intros H. exfalso.
    revert H. unfold semantic_search. apply except_500_not_422.
  - split; reflexivity.
Qed.

Example top_k_zero_rejected :
  post_semantic_search (backend := Examples.example_backend)
                       Examples.db_tie Examples.request_top_k_0
  = Raise HTTP422.
Proof. reflexivity. Qed.

(** C6 as stated fails on the empty query: with [top_k] and [min_score] in
    range the request is accepted, embedded and answered. *)
Lemma C6_empty_query_counterexample :
  query Examples.request_empty_query = ""
  /\ exists response,
       post_semantic_search (backend := Examples.example_backend)
                            Examples.db_tie Examples.request_empty_query
       = Ok response
       /\ total response = 2%nat.
Proof.
  split; [reflexivity|]. eexists. split; vm_compute; reflexivity.
Qed.

(** ** The search route *)

Section SearchFacts.
Context {backend : Backend}.

Lemma format_result_inv :
  forall q a s h,
    format_result q (a, s) = Ok h ->
    exists card,
      validate_AgentCard (ad_agent_card a) = Some card
      /\ h = mkSemanticSearchResult (ad_agent_id a) card (ad_tags a)
               (ad_verified a) (round4 s) (determine_matched_on q a)
      /\ 0 <= round4 s /\ round4 s <= 1.
Proof.
  intros q a s h H. unfold format_result, bind, of_option in H.
  destruct (validate_AgentCard (ad_agent_card a)) as [card|]; [|discriminate].
  match type of H with (if ?v then _ else _) = _ => destruct v eqn:V end;
    [|discriminate].
  injection H as <-. exists card. split; [reflexivity|]. split; [reflexivity|].
  unfold validate_SemanticSearchResult in V. simpl in V.
  apply andb_true_iff in V as [V1 V2].
  now rewrite !Qle_bool_iff in *.
Qed.

Lemma format_results_Forall2 :
  forall q raw hits,
    format_results q raw = Ok hits ->
    Forall2 (fun r h => format_result q r = Ok h) raw hits.
Proof.
  intros q raw. induction raw as [|r raw IH]; intros hits H; simpl in H.
  - injection H as <-. constructor.
  - unfold bind in H.
    destruct (format_result q r) as [h|] eqn:Hr; [|discriminate].
    destruct (format_results q raw) as [hs|]; [|discriminate].
    injection H as <-. constructor; auto.
Qed.

Lemma format_results_scores :
  forall q raw hits,
    format_results q raw = Ok hits ->
    map similarity_score hits = map (fun r => round4 (snd r)) raw
    /\ map res_agent_id hits = map (fun r => ad_agent_id (fst r)) raw.
Proof.
  intros q raw hits H. apply format_results_Forall2 in H.
  induction H as [|[a s] h raw hits Hh _ [IH1 IH2]]; [split; reflexivity|].
  apply format_result_inv in Hh as (card & _ & -> & _).
  simpl. now rewrite IH1, IH2.
Qed.

Lemma semantic_search_inv :
  forall db request response,
    semantic_search db request = Ok response ->
    exists query_embedding raw_results,
      encode (query request) = Some query_embedding
      /\ search_similar db query_embedding (top_k request) (min_score request)
           (request_tags_filter request) (request_verified_only request)
         = Ok raw_results
      /\ format_results (query request) raw_results = Ok (results response)
      /\ resp_query response = query request
      /\ total response = List.length (results response).
Proof.
  intros db request response H.
  unfold semantic_search, except_500, bind, of_option, of_db, embed_text in H.
  destruct (encode (query request)) as [qe|]; [|discriminate].
  destruct (search_similar db qe (top_k request) (min_score request)
              (request_tags_filter request) (request_verified_only request))
    as [raw|] eqn:S; [|discriminate].
  destruct (format_results (query request) raw) as [hits|] eqn:F; [|discriminate].
  injection H as <-. exists qe, raw. simpl. auto.
Qed.

Lemma search_similar_inv :
  forall db qe k m tf v raw,
    search_similar db qe k m tf v = Ok raw ->
    (0 <= k)%Z /\ raw = map to_result (fetched_rows db qe k m tf v).
Proof.
  intros db qe k m tf v raw H. unfold search_similar in H.
  destruct (k <? 0)%Z eqn:K; [discriminate|].
  apply Z.ltb_ge in K. injection H as <-. now split.
Qed.

Lemma In_firstn : forall (A : Type) n (l : list A) x, In x (firstn n l) -> In x l.
Proof.
  intros A n. induction n as [|n IH]; intros [|y l] x; simpl; try tauto.
  intros [->|H]; auto.
Qed.

Lemma In_join_rows :
  forall db qe row,
    In row (join_rows db qe) ->
    exists e r,
      In e (agent_embeddings db) /\ In r (registry_entries db)
      /\ e_agent_id e = r_agent_id r
      /\ row_agent_id row = r_agent_id r
      /\ row_similarity row = 1 - cosine_distance (e_embedding e) qe.
Proof.
  intros db qe row H. unfold join_rows in H.
  apply in_flat_map in H as (e & He & H).
  apply in_map_iff in H as (r & <- & Hr).
  apply filter_In in Hr as [Hr E]. apply String.eqb_eq in E.
  exists e, r. simpl. auto.
Qed.

Lemma In_fetched_rows :
  forall db qe k m tf v row,
    In row (fetched_rows db qe k m tf v) ->
    In row (join_rows db qe) /\ where_clause m tf v row = true.
Proof.
  intros db qe k m tf v row H. unfold fetched_rows in H.
  apply In_firstn in H. apply order_by_In in H. now apply filter_In in H.
Qed.

Lemma fetched_rows_sorted :
  forall db qe k m tf v,
    StronglySorted (fun x y => row_similarity y <= row_similarity x)
                   (fetched_rows db qe k m tf v).
Proof.
  intros. unfold fetched_rows. apply StronglySorted_firstn.
  eapply StronglySorted_impl;
    [| apply order_by_sorted;
       [apply similarity_desc_total | apply similarity_desc_trans]].
  intros x y H. unfold similarity_desc in H. now apply Qle_bool_iff.
Qed.

Lemma fetched_rows_length :
  forall db qe k m tf v,
    (List.length (fetched_rows db qe k m tf v) <= Z.to_nat k)%nat.
Proof. intros. unfold fetched_rows. apply firstn_le_length. Qed.

End SearchFacts.

Lemma Forall2_Forall_r :
  forall (A B : Type) (P : A -> B -> Prop) (Q : B -> Prop) l l',
    Forall2 P l l' ->
    (forall x y, In x l -> P x y -> Q y) ->
    Forall Q l'.
Proof.
  intros A B P Q l l' H. induction H as [|x y l l' Hxy _ IH]; intros HQ.
  - constructor.
  - constructor; [apply (HQ x); simpl; auto|].
    apply IH. intros x' y' Hin. apply HQ. now right.
Qed.

Lemma round4_exact : forall (x : Q) (k : Z), x == k # 10000 -> round4 x == x.
Proof.
  intros x k H.
  apply Qeq_trans with (k # 10000); [|apply Qeq_sym; exact H].
  unfold Qeq in H. simpl in H.
  unfold round4, round_half_even.
  replace (Qnum x * 10000)%Z with (k * Zpos (Qden x))%Z by lia.
  rewrite Z.div_mul, Z.mod_mul by lia. simpl. reflexivity.
Qed.

Section SearchTheorems.
Context {backend : Backend}.

(** Every hit of a successful search comes from a stored embedding whose
    similarity with the query embedding passes the threshold and rounds to
    the hit's score. *)
Lemma search_hits_origin :
  forall db request response,
    semantic_search db request = Ok response ->
    exists query_embedding,
      encode (query request) = Some query_embedding
      /\ Forall
           (fun hit =>
              exists e,
                In e (agent_embeddings db)
                /\ e_agent_id e = res_agent_id hit
                /\ min_score request
                   <= 1 - cosine_distance (e_embedding e) query_embedding
                /\ similarity_score hit
                   = round4 (1 - cosine_distance (e_embedding e) query_embedding)
                /\ 0 <= similarity_score hit /\ similarity_score hit <= 1)
           (results response).
Proof.
  intros db request response H.
  apply semantic_search_inv in H as (qe & raw & E & S & F & _).
  exists qe. split; [assumption|].
  apply search_similar_inv in S as [_ ->].
  apply format_results_Forall2 in F.
  eapply Forall2_Forall_r; [exact F|].
  intros [a s] hit Hin Hf. cbv beta in Hf.
  apply in_map_iff in Hin as (row & Hrow & Hin).
  apply In_fetched_rows in Hin as [Hj Hw].
  apply In_join_rows in Hj as (e & r & He & _ & Eid & Rid & Sim).
  apply format_result_inv in Hf as (card & _ & -> & L & U).
  unfold to_result in Hrow. injection Hrow as <- <-.
  exists e. simpl. rewrite <- Sim.
  repeat split; auto; try congruence.
  unfold where_clause in Hw.
  apply andb_true_iff in Hw as [Hw _]. apply andb_true_iff in Hw as [Hw _].
  now apply Qle_bool_iff.
Qed.

(** C1 (as amended).  For every search that succeeds: each hit's unrounded
    similarity is at least [min_score], so its [similarity_score] (the
    similarity rounded to four decimals) is at least [min_score] rounded to
    four decimals and at least [min_score - 0.00005], and at least
    [min_score] itself when [min_score] has at most four decimals; the number
    of hits is at most [top_k]; the hits are in descending order of
    [similarity_score]. *)
Theorem C1_search_threshold_limit_order :
  forall db request response,
    semantic_search db request = Ok response ->
    (exists query_embedding,
        encode (query request) = Some query_embedding
        /\ Forall
             (fun hit =>
                exists e,
                  In e (agent_embeddings db)
                  /\ e_agent_id e = res_agent_id hit
                  /\ min_score request
                     <= 1 - cosine_distance (e_embedding e) query_embedding
                  /\ similarity_score hit
                     = round4 (1 - cosine_distance (e_embedding e)
                                                   query_embedding))
             (results response))
    /\ Forall (fun hit =>
                 round4 (min_score request) <= similarity_score hit
                 /\ min_score request - (1 # 20000) <= similarity_score hit)
              (results response)
    /\ (forall k : Z,
           min_score request == k # 10000 ->
           Forall (fun hit => min_score request <= similarity_score hit)
                  (results response))
    /\ (Z.of_nat (List.length (results response)) <= top_k request)%Z
    /\ StronglySorted (fun a b => b <= a)
                      (map similarity_score (results response)).
Proof.
  intros db request response H.
  destruct (search_hits_origin _ _ _ H) as (qe & E & O).
  assert (R : Forall (fun hit => round4 (min_score request) <= similarity_score hit)
                     (results response)).
  { eapply Forall_impl; [|exact O].
    intros hit (e & _ & _ & M & -> & _). now apply round4_monotone. }
  split; [|split; [|split; [|split]]].
  - exists qe. split; [assumption|].
    eapply Forall_impl; [|exact O].
    intros hit (e & ? & ? & ? & ? & _). exists e. auto.
  - eapply Forall_impl; [|exact O].
    intros hit (e & _ & _ & M & -> & _). split.
    + now apply round4_monotone.
    + eapply Qle_trans; [|apply round4_lower].
      unfold Qminus. apply Qplus_le_compat; [assumption | apply Qle_refl].
  - intros k Hk. eapply Forall_impl; [|exact R].
    intros hit Hh. cbv beta in Hh. now rewrite (round4_exact _ _ Hk) in Hh.
  - apply semantic_search_inv in H as (qe' & raw & _ & S & F & _).
    apply search_similar_inv in S as [K ->].
    apply format_results_Forall2, Forall2_length in F.
    rewrite <- F, length_map.
    pose proof (fetched_rows_length db qe' (top_k request) (min_score request)
                  (request_tags_filter request) (request_verified_only request)).
    lia.
  - apply semantic_search_inv in H as (qe' & raw & _ & S & F & _).
    apply search_similar_inv in S as [_ ->].
    apply format_results_scores in F as [-> _].
    rewrite map_map. apply StronglySorted_map.
    eapply StronglySorted_impl; [|apply fetched_rows_sorted].
    intros x y Hxy. simpl. now apply round4_monotone.
Qed.


End SearchTheorems.

(** C1 as stated fails after rounding: a stored vector with cosine 5/13
    (0.384615...) passes the threshold 0.38461 and is returned with the
    score 0.3846, below the threshold. *)
Lemma C1_rounding_counterexample :
  exists response hit,
    post_semantic_search (backend := Examples.example_backend)
                         Examples.db_5_13 Examples.request_5_13
    = Ok response
    /\ In hit (results response)
    /\ similarity_score hit = 3846 # 10000
    /\ similarity_score hit < min_score Examples.request_5_13.
Proof.
  eexists. eexists. split; [vm_compute; reflexivity|].
  split; [left; reflexivity|]. split; reflexivity.
Qed.

(** A search on the two-agent database, to which C1 applies. *)
Lemma C1_witness :
  exists response,
    semantic_search (backend := Examples.example_backend)
                    Examples.db_tie Examples.request_tie
    = Ok response
    /\ (Z.of_nat (List.length (results response))
        <= top_k Examples.request_tie)%Z
    /\ StronglySorted (fun a b => b <= a)
                      (map similarity_score (results response)).
Proof.
  eexists. split; [vm_compute; reflexivity|].
  split;
    apply (@C1_search_threshold_limit_order Examples.example_backend
             Examples.db_tie Examples.request_tie);
    vm_compute; reflexivity.
Defined.


(** ** Attribution of a hit ([matched_on]) *)



Section MatchedOn.
Variable q : string.
Variable agent_data : AgentData.



End MatchedOn.






(** ** The order of the candidates and the agent ids *)


Section Renaming.
Context {backend : Backend}.
Variable f : string -> string.
Hypothesis f_injective : forall x y, f x = f y -> x = y.





End Renaming.




(** ** Writes to [agent_embeddings] *)

Lemma map_do_update_ids :
  forall id emb text now l,
    map e_agent_id (map (do_update id emb text now) l) = map e_agent_id l.
Proof.
  intros. rewrite map_map. apply map_ext. intros e. unfold do_update.
  now destruct (has_agent_id id e).
Qed.

Lemma existsb_has_agent_id :
  forall id l,
    existsb (has_agent_id id) l = true <-> In id (map e_agent_id l).
Proof.
  intros id l. rewrite existsb_exists, in_map_iff. unfold has_agent_id.
  split; intros (e & H1 & H2); exists e.
  - apply String.eqb_eq in H2. auto.
  - split; [assumption|]. now apply String.eqb_eq.
Qed.

Lemma filter_has_agent_id_absent :
  forall id l, ~ In id (map e_agent_id l) -> filter (has_agent_id id) l = [].
Proof.
  intros id l. induction l as [|e l IH]; simpl; intros H; [reflexivity|].
  unfold has_agent_id at 1. destruct (String.eqb (e_agent_id e) id) eqn:E.
  - apply String.eqb_eq in E. tauto.
  - apply IH. tauto.
Qed.

Lemma unique_entry :
  forall id l,
    NoDup (map e_agent_id l) -> In id (map e_agent_id l) ->
    List.length (filter (has_agent_id id) l) = 1%nat.
Proof.
  intros id l. induction l as [|e l IH]; simpl; intros N H; [contradiction|].
  inversion N as [|? ? Hn N']; subst.
  unfold has_agent_id at 1. destruct (String.eqb (e_agent_id e) id) eqn:E.
  - apply String.eqb_eq in E. subst.
    now rewrite filter_has_agent_id_absent.
  - apply String.eqb_neq in E. destruct H as [H|H]; [contradiction|]. auto.
Qed.

Lemma store_embedding_inv :
  forall db now id emb text db',
    store_embedding db now id emb text = Ok db' ->
    (String.length id <= 255)%nat
    /\ List.length emb = embedding_dimension
    /\ registry_entries db' = registry_entries db
    /\ ((In id (map e_agent_id (agent_embeddings db))
         /\ agent_embeddings db'
            = map (do_update id emb text now) (agent_embeddings db))
        \/ (~ In id (map e_agent_id (agent_embeddings db))
            /\ (exists r, In r (registry_entries db) /\ r_agent_id r = id)
            /\ agent_embeddings db'
               = (agent_embeddings db
                  ++ [mkEmbeddingRow (agent_embeddings_id_seq db) id emb text
                                     now now])%list)).
Proof.
  intros db now id emb text db' H. unfold store_embedding in H.
  destruct (255 <? String.length id)%nat eqn:L; [discriminate|].
  apply Nat.ltb_ge in L.
  destruct (List.length emb =? embedding_dimension)%nat eqn:D;
    [|discriminate].
  apply Nat.eqb_eq in D. simpl in H.
  destruct (existsb (has_agent_id id) (agent_embeddings db)) eqn:X.
  - injection H as <-. apply existsb_has_agent_id in X. simpl. auto 10.
  - destruct (existsb _ (registry_entries db)) eqn:R; [|discriminate].
    injection H as <-. simpl.
    split; [assumption|]. split; [assumption|]. split; [reflexivity|].
    right. split.
    + intros C. apply existsb_has_agent_id in C. congruence.
    + split; [|reflexivity].
      apply existsb_exists in R as (r & Hr & E).
      apply String.eqb_eq in E. eauto.
Qed.

Lemma store_embedding_unique :
  forall db now id emb text db',
    unique_agent_ids db ->
    store_embedding db now id emb text = Ok db' ->
    unique_agent_ids db' /\ In id (map e_agent_id (agent_embeddings db')).
Proof.
  unfold unique_agent_ids. intros db now id emb text db' U H.
  apply store_embedding_inv in H
    as (_ & _ & _ & [(I & ->) | (I & _ & ->)]).
  - rewrite map_do_update_ids. auto.
  - rewrite map_app. simpl. split.
    + apply NoDup_app; [assumption | repeat constructor; simpl; tauto |].
      intros x Hx [<- | []]. contradiction.
    + apply in_or_app. right. now left.
Qed.

Lemma store_embedding_content :
  forall db now id emb text db' e,
    store_embedding db now id emb text = Ok db' ->
    In e (agent_embeddings db') -> e_agent_id e = id ->
    e_embedding e = emb /\ e_text_content e = text /\ e_updated_at e = now.
Proof.
  intros db now id emb text db' e H He Hid.
  apply store_embedding_inv in H
    as (_ & _ & _ & [(I & E) | (I & _ & E)]); rewrite E in He.
  - apply in_map_iff in He as (e0 & <- & _). unfold do_update in *.
    destruct (has_agent_id id e0) eqn:X; simpl; auto.
    unfold has_agent_id in X. apply String.eqb_neq in X. contradiction.
  - apply in_app_or in He as [He | [<- | []]]; simpl; auto.
    exfalso. apply I. apply in_map_iff. eauto.
Qed.

Lemma store_embedding_again :
  forall db now id emb text,
    (String.length id <= 255)%nat ->
    List.length emb = embedding_dimension ->
    In id (map e_agent_id (agent_embeddings db)) ->
    store_embedding db now id emb text
    = Ok (mkDatabase (registry_entries db)
                     (map (do_update id emb text now) (agent_embeddings db))
                     (agent_embeddings_id_seq db + 1)).
Proof.
  intros db now id emb text L D I. unfold store_embedding.
  apply Nat.ltb_ge in L. rewrite L.
  apply Nat.eqb_eq in D. rewrite D. simpl.
  apply existsb_has_agent_id in I. now rewrite I.
Qed.

(** ** The single-agent index route *)

Section IndexAgent.
Context {backend : Backend}.

Lemma index_agent_inv :
  forall db now request db' response,
    index_agent db now request = Ok (db', response) ->
    exists embedding,
      embed_agent (model_dump (ia_agent_card request)) (Some (ia_tags request))
      = Some embedding
      /\ store_embedding db now (ia_agent_id request) embedding
                         (index_agent_text_content request)
         = Ok db'.
Proof.
  intros db now request db' response H.
  unfold index_agent, except_500, bind, of_option, of_db in H.
  destruct (embed_agent _ _) as [emb|]; [|discriminate].
  destruct (store_embedding _ _ _ _ _) as [d|] eqn:S; [|discriminate].
  injection H as <- _. exists emb. auto.
Qed.

(** C4.  Every successful write keeps the agent ids of the embedding table
    pairwise distinct and leaves exactly one entry for the written id.
    Indexing an agent a second time with the same request succeeds, adds no
    row and overwrites the entry of that agent in place: after either call
    the agent has exactly one entry, and after the second it holds the
    embedding and the text of the request and the time of the second
    write. *)
Theorem C4_reindex_overwrites :
  (forall db now agent_id embedding text_content db',
      unique_agent_ids db ->
      store_embedding db now agent_id embedding text_content = Ok db' ->
      unique_agent_ids db'
      /\ List.length (entries_of agent_id db') = 1%nat)
  /\
  (forall db now1 now2 request db1 response1,
      unique_agent_ids db ->
      index_agent db now1 request = Ok (db1, response1) ->
      exists db2 response2 embedding,
        index_agent db1 now2 request = Ok (db2, response2)
        /\ embed_agent (model_dump (ia_agent_card request))
                       (Some (ia_tags request))
           = Some embedding
        /\ List.length (entries_of (ia_agent_id request) db1) = 1%nat
        /\ List.length (entries_of (ia_agent_id request) db2) = 1%nat
        /\ unique_agent_ids db2
        /\ agent_embeddings db2
           = map (do_update (ia_agent_id request) embedding
                            (index_agent_text_content request) now2)
                 (agent_embeddings db1)
        /\ List.length (agent_embeddings db2) = List.length (agent_embeddings db1)
        /\ Forall (fun e =>
                     e_embedding e = embedding
                     /\ e_text_content e = index_agent_text_content request
                     /\ e_updated_at e = now2)
                  (entries_of (ia_agent_id request) db2)).
Proof.
  assert (W : forall db now agent_id embedding text_content db',
             unique_agent_ids db ->
             store_embedding db now agent_id embedding text_content = Ok db' ->
             unique_agent_ids db'
             /\ List.length (entries_of agent_id db') = 1%nat).
  { intros db now id emb text db' U H.
    destruct (store_embedding_unique _ _ _ _ _ _ U H) as [U' I].
    split; [assumption|]. now apply unique_entry. }
  split; [exact W|].
  intros db now1 now2 request db1 response1 U H.
  apply index_agent_inv in H as (emb & E & S).
  destruct (W _ _ _ _ _ _ U S) as [U1 C1].
  destruct (store_embedding_unique _ _ _ _ _ _ U S) as [_ I1].
  pose proof (store_embedding_inv _ _ _ _ _ _ S) as (L & D & _).
  pose proof (store_embedding_again db1 now2 _ _
                (index_agent_text_content request) L D I1) as S2.
  destruct (W _ _ _ _ _ _ U1 S2) as [U2 C2].
  eexists. eexists. exists emb. split.
  { unfold index_agent, except_500, bind, of_option, of_db.
    rewrite E, S2. reflexivity. }
  split; [assumption|]. split; [assumption|]. split; [assumption|].
  split; [assumption|]. split; [reflexivity|].
  split; [simpl; now rewrite length_map|].
  apply Forall_forall. intros e He.
  apply filter_In in He as [He Hid].
  apply String.eqb_eq in Hid.
  eapply store_embedding_content; eauto.
Qed.

End IndexAgent.

(** Indexing "agent-1" twice in the three-agent directory. *)
Lemma C4_witness :
  unique_agent_ids Examples.db_three
  /\ exists db1 response1 db2 response2,
       index_agent (backend := Examples.example_backend)
                   Examples.db_three 10 Examples.index_request
       = Ok (db1, response1)
       /\ index_agent (backend := Examples.example_backend)
                      db1 20 Examples.index_request
          = Ok (db2, response2)
       /\ List.length (entries_of "agent-1" db2) = 1%nat.
Proof.
  assert (U : unique_agent_ids Examples.db_three) by constructor.
  split; [exact U|].
  destruct (index_agent (backend := Examples.example_backend)
                        Examples.db_three 10 Examples.index_request)
    as [[db1 response1]|] eqn:H; [|vm_compute in H; discriminate].
  destruct (proj2 (@C4_reindex_overwrites Examples.example_backend)
              Examples.db_three 10%Z 20%Z Examples.index_request db1 response1
              U H)
    as (db2 & response2 & emb & H2 & _ & _ & C & _).
  exists db1, response1, db2, response2. auto.
Defined.

(** ** The bulk index route *)

Lemma filter_negb_length :
  forall (A : Type) (p : A -> bool) (l : list A),
    (List.length (filter (fun x => negb (p x)) l)
     + List.length (filter p l) = List.length l)%nat.
Proof.
  intros A p l. induction l as [|x l IH]; simpl; [reflexivity|].
  destruct (p x); simpl; lia.
Qed.

Lemma store_embedding_registered :
  forall db now id emb text,
    In id (map r_agent_id (registry_entries db)) ->
    if storable id emb
    then exists db', store_embedding db now id emb text = Ok db'
    else exists e, store_embedding db now id emb text = Raise e.
Proof.
  intros db now id emb text R. unfold storable, store_embedding.
  destruct (String.length id <=? 255)%nat eqn:L.
  - apply Nat.leb_le in L. apply Nat.ltb_ge in L. rewrite L.
    destruct (List.length emb =? embedding_dimension)%nat; simpl;
      [|eauto].
    destruct (existsb (has_agent_id id) (agent_embeddings db)); [eauto|].
    replace (existsb _ (registry_entries db)) with true; [eauto|].
    symmetry. apply existsb_exists.
    apply in_map_iff in R as (r & E & Hr). exists r. split; [assumption|].
    now apply String.eqb_eq.
  - apply Nat.leb_gt in L. apply Nat.ltb_lt in L. rewrite L. simpl. eauto.
Qed.

Section IndexAll.
Context {backend : Backend}.

Lemma get_all_agents_registered :
  forall db agent,
    In agent (get_all_agents db) ->
    In (as_agent_id agent) (map r_agent_id (registry_entries db)).
Proof.
  intros db agent H. unfold get_all_agents in H.
  apply in_map_iff in H as (r & <- & Hr). apply order_by_In in Hr.
  simpl. now apply in_map.
Qed.


(** For a registered agent the outcome of the [try] block depends on the
    model and on the agent only. *)
Lemma index_fails_registered :
  forall db now agent,
    In (as_agent_id agent) (map r_agent_id (registry_entries db)) ->
    index_fails db now agent
    = match embed_agent (as_agent_card agent) (Some (as_tags agent)) with
      | Some emb => negb (storable (as_agent_id agent) emb)
      | None => true
      end.
Proof.
  intros db now agent R. unfold index_fails, index_all_try, bind, of_option.
  destruct (embed_agent _ _) as [emb|]; [|reflexivity].
  pose proof (store_embedding_registered db now _ emb
                (index_all_text_content agent) R) as S.
  destruct (storable (as_agent_id agent) emb); destruct S as [x ->]; reflexivity.
Qed.

Lemma index_all_try_registry :
  forall db now agent db',
    index_all_try db now agent = Ok db' ->
    registry_entries db' = registry_entries db.
Proof.
  intros db now agent db' H. unfold index_all_try, bind, of_option, of_db in H.
  destruct (embed_agent _ _) as [emb|]; [|discriminate].
  destruct (store_embedding _ _ _ _ _) as [d|] eqn:S; [|discriminate].
  injection H as <-. now apply store_embedding_inv in S.
Qed.

Lemma index_all_try_writes :
  forall db now agents agent db',
    index_all_try db now agent = Ok db' ->
    In agent agents ->
    indexed_entry db' now agents (as_agent_id agent)
    /\ forall id, indexed_entry db now agents id ->
                  indexed_entry db' now agents id.
Proof.
  intros db now agents agent db' H Hin.
  unfold index_all_try, bind, of_option, of_db in H.
  destruct (embed_agent _ _) as [emb|] eqn:E; [|discriminate].
  destruct (store_embedding _ _ _ _ _) as [d|] eqn:S; [|discriminate].
  injection H as <-.
  assert (New : forall row,
             In row (agent_embeddings d) ->
             e_agent_id row = as_agent_id agent ->
             indexed_entry d now agents (as_agent_id agent)).
  { intros row Hr Hid.
    destruct (store_embedding_content _ _ _ _ _ _ _ S Hr Hid) as (C1 & C2 & C3).
    exists row, agent. rewrite C1. auto 10. }
  split.
  - pose proof (store_embedding_inv _ _ _ _ _ _ S)
      as (_ & _ & _ & [(I & Eq) | (_ & _ & Eq)]).
    + apply in_map_iff in I as (row & Hid & Hr).
      apply (New (do_update (as_agent_id agent) emb
                            (index_all_text_content agent) now row)).
      * rewrite Eq. now apply in_map.
      * unfold do_update. now destruct (has_agent_id _ row).
    + eapply New; [rewrite Eq; apply in_or_app; right; left; reflexivity|].
      reflexivity.
  - intros id (row & a & Hr & Ha & Hid & Hrid & Hemb & Htext & Hnow).
    pose proof (store_embedding_inv _ _ _ _ _ _ S)
      as (_ & _ & _ & [(I & Eq) | (_ & _ & Eq)]).
    + destruct (has_agent_id (as_agent_id agent) row) eqn:X.
      * apply String.eqb_eq in X.
        replace id with (as_agent_id agent) by congruence.
        apply (New (do_update (as_agent_id agent) emb
                              (index_all_text_content agent) now row)).
        -- rewrite Eq. now apply in_map.
        -- unfold do_update. now destruct (has_agent_id _ row).
      * exists row, a. repeat split; auto.
        rewrite Eq. apply in_map_iff. exists row. split; [|assumption].
        unfold do_update. now rewrite X.
    + exists row, a. repeat split; auto.
      rewrite Eq. apply in_or_app. now left.
Qed.

Lemma index_all_loop :
  forall now db0 agents l db indexed failed,
    registry_entries db = registry_entries db0 ->
    (forall a, In a l ->
               In a agents
               /\ In (as_agent_id a) (map r_agent_id (registry_entries db0))) ->
    exists db',
      fold_left (index_all_body now) l (db, indexed, failed)
      = (db',
         (indexed
          + List.length (filter (fun a => negb (index_fails db0 now a)) l))%nat,
         (failed + List.length (filter (index_fails db0 now) l))%nat)
      /\ registry_entries db' = registry_entries db0
      /\ (forall id, indexed_entry db now agents id ->
                     indexed_entry db' now agents id)
      /\ (forall a, In a l -> index_fails db0 now a = false ->
                    indexed_entry db' now agents (as_agent_id a)).
Proof.
  intros now db0 agents l.
  induction l as [|a l IH]; intros db indexed failed R Hl.
  - exists db. simpl. rewrite !Nat.add_0_r. repeat split; auto.
    intros a [].
  - destruct (Hl a (or_introl eq_refl)) as [Ha Hreg].
    assert (F : index_fails db now a = index_fails db0 now a).
    { rewrite !index_fails_registered; auto. now rewrite R. }
    change (fold_left (index_all_body now) (a :: l) (db, indexed, failed))
      with (fold_left (index_all_body now) l
              (match index_all_try db now a with
               | Ok db' => (db', indexed + 1, failed)%nat
               | Raise _ => (db, indexed, failed + 1)%nat
               end)).
    unfold index_fails in F at 1.
    destruct (index_all_try db now a) as [db1|e] eqn:T.
    + pose proof (index_all_try_registry _ _ _ _ T) as R1.
      destruct (index_all_try_writes _ _ agents _ _ T Ha) as [W P].
      destruct (IH db1 (indexed + 1)%nat failed) as (db' & E & R' & P' & N').
      { congruence. }
      { intros x Hx. apply Hl. now right. }
      exists db'. simpl filter. rewrite <- F. simpl.
      rewrite E. split; [f_equal; f_equal; lia|].
      split; [assumption|]. split; [auto|].
      intros x [<- | Hx] Hf; auto.
    + destruct (IH db indexed (failed + 1)%nat) as (db' & E & R' & P' & N').
      { assumption. }
      { intros x Hx. apply Hl. now right. }
      exists db'. simpl filter. rewrite <- F. simpl.
      rewrite E. split; [f_equal; lia|].
      split; [assumption|]. split; [auto|].
      intros x [<- | Hx] Hf; [congruence | auto].
Qed.

(** The bulk route never raises: it answers with the number of agents whose
    [try] block returned and the number of those for which it raised. *)
Lemma index_all_agents_counts :
  forall db now,
    exists db',
      index_all_agents db now
      = Ok (db',
            mkIndexAllResponse
              (List.length (get_all_agents db)
               - List.length (filter (index_fails db now) (get_all_agents db)))
              (List.length (filter (index_fails db now) (get_all_agents db))))
      /\ registry_entries db' = registry_entries db
      /\ forall agent,
           In agent (get_all_agents db) ->
           index_fails db now agent = false ->
           indexed_entry db' now (get_all_agents db) (as_agent_id agent).
Proof.
  intros db now.
  destruct (index_all_loop now db (get_all_agents db) (get_all_agents db)
              db 0%nat 0%nat eq_refl) as (db' & E & R & _ & N).
  { intros a Ha. split; [assumption | now apply get_all_agents_registered]. }
  exists db'. unfold index_all_agents, except_500. cbv zeta. rewrite E.
  simpl. split; [|auto].
  pose proof (filter_negb_length _ (index_fails db now) (get_all_agents db)).
  do 3 f_equal. lia.
Qed.

(** C2.  When the [try] block raises (the model or the store fails) for
    exactly one agent of the directory snapshot, the bulk route returns,
    with [indexed_count = N - 1] and [failed_count = 1], and every other
    agent of the snapshot, before or after the failing one, has its entry
    in the store, written in this run. *)
Theorem C2_index_all_isolates_failure :
  forall db now,
    List.length (filter (index_fails db now) (get_all_agents db)) = 1%nat ->
    exists db',
      index_all_agents db now
      = Ok (db',
            mkIndexAllResponse (List.length (get_all_agents db) - 1) 1)
      /\ registry_entries db' = registry_entries db
      /\ forall agent,
           In agent (get_all_agents db) ->
           index_fails db now agent = false ->
           indexed_entry db' now (get_all_agents db) (as_agent_id agent).
Proof.
  intros db now H.
  destruct (index_all_agents_counts db now) as (db' & E & R & N).
  rewrite H in E. exists db'. auto.
Qed.

End IndexAll.

(** Three agents, the model raising on the second: two entries are
    written and the counts are 2 and 1. *)
Lemma C2_witness :
  List.length (filter (index_fails (backend := Examples.backend_one_failure)
                                   Examples.db_three 7)
                      (get_all_agents Examples.db_three)) = 1%nat
  /\ exists db',
       index_all_agents (backend := Examples.backend_one_failure)
                        Examples.db_three 7
       = Ok (db', mkIndexAllResponse 2 1)
       /\ map e_agent_id (agent_embeddings db') = ["agent-1"; "agent-3"].
Proof.
  assert (H : List.length
                (filter (index_fails (backend := Examples.backend_one_failure)
                                     Examples.db_three 7)
                        (get_all_agents Examples.db_three)) = 1%nat)
    by (vm_compute; reflexivity).
  split; [exact H|].
  destruct (@C2_index_all_isolates_failure Examples.backend_one_failure
              Examples.db_three 7%Z H) as (db' & E & _).
  exists db'. split; [exact E|].
  assert (E' : index_all_agents (backend := Examples.backend_one_failure)
                                Examples.db_three 7
               = Ok (db', mkIndexAllResponse 2 1)) by exact E.
  revert E'. vm_compute. intros E'. injection E' as <-. reflexivity.
Defined.

(** ** [compute_similarity] *)

Section SimilarityFacts.
Import Similarity.
Local Open Scope R_scope.

Lemma sum_squares_nonneg : forall a, 0 <= sum_squares a.
Proof.
  induction a as [|x a IH]; simpl; [lra|].
  pose proof (Rle_0_sqr x) as S. unfold Rsqr in S. lra.
Qed.

Lemma sum_squares_pos :
  forall a, Exists (fun x => x <> 0) a -> 0 < sum_squares a.
Proof.
  induction 1 as [x a Hx | x a _ IH]; simpl.
  - pose proof (sum_squares_nonneg a).
    pose proof (Rsqr_pos_lt x Hx) as S. unfold Rsqr in S. lra.
  - pose proof (Rle_0_sqr x) as S. unfold Rsqr in S. lra.
Qed.

Lemma norm_nonzero :
  forall a, Exists (fun x => x <> 0) a -> np_linalg_norm a <> 0.
Proof.
  intros a H. unfold np_linalg_norm.
  pose proof (sqrt_lt_R0 _ (sum_squares_pos a H)). lra.
Qed.




Lemma np_dot_aligned :
  forall a b, List.length a = List.length b -> exists d, np_dot a b = Ok d.
Proof.
  induction a as [|x a IH]; intros [|y b] H; simpl in *; try discriminate.
  - eauto.
  - injection H as H. destruct (IH b H) as [d ->]. eauto.
Qed.



Lemma cosine_branch_no_zero_divisor :
  forall a b n1 n2,
    n1 <> 0 -> n2 <> 0 -> cosine_branch a b n1 n2 <> Raise DivideByZero.
Proof.
  intros a b n1 n2 H1 H2. unfold cosine_branch, np_divide.
  destruct (np_dot a b) as [d|e] eqn:D.
  - destruct (Req_dec_T (n1 * n2) 0) as [Z|Z]; [|discriminate].
    apply Rmult_integral in Z. tauto.
  - intros C. injection C as ->. revert b D. clear.
    induction a as [|x a IH]; intros [|y b]; simpl; try discriminate.
    destruct (np_dot a b) eqn:D; [discriminate|].
    intros E. injection E as ->. eauto.
Qed.

Lemma cosine_branch_aligned :
  forall a b n1 n2,
    List.length a = List.length b -> n1 <> 0 -> n2 <> 0 ->
    exists s, cosine_branch a b n1 n2 = Ok s.
Proof.
  intros a b n1 n2 L H1 H2. unfold cosine_branch, np_divide.
  destruct (np_dot_aligned a b L) as [d ->].
  destruct (Req_dec_T (n1 * n2) 0) as [Z|Z]; [|eauto].
  apply Rmult_integral in Z. tauto.
Qed.



(** C10 (as amended).  If either vector has zero norm the result is exactly
    0; the quotient is evaluated only when both norms are non-zero, and then
    its divisor is non-zero: a division by zero never occurs.  For two
    vectors of the same length a value is returned. *)
Theorem C10_zero_norm_guard :
  forall embedding1 embedding2 : list R,
    let norm1 := np_linalg_norm embedding1 in
    let norm2 := np_linalg_norm embedding2 in
    (norm1 = 0 \/ norm2 = 0 -> compute_similarity embedding1 embedding2 = Ok 0)
    /\ (norm1 <> 0 -> norm2 <> 0 ->
        compute_similarity embedding1 embedding2
        = cosine_branch embedding1 embedding2 norm1 norm2
        /\ norm1 * norm2 <> 0)
    /\ compute_similarity embedding1 embedding2 <> Raise DivideByZero
    /\ (List.length embedding1 = List.length embedding2 ->
        exists s, compute_similarity embedding1 embedding2 = Ok s).
Proof.
  intros e1 e2 norm1 norm2. unfold compute_similarity.
  fold norm1. fold norm2.
  destruct (Req_dec_T norm1 0) as [Z1|N1].
  { repeat split; try tauto; try discriminate; eauto. }
  destruct (Req_dec_T norm2 0) as [Z2|N2].
  { repeat split; try tauto; try discriminate; eauto. }
  split; [tauto|]. split; [|split].
  - intros _ _. split; [reflexivity|].
    intros Z. apply Rmult_integral in Z. tauto.
  - now apply cosine_branch_no_zero_divisor.
  - intros L. now apply cosine_branch_aligned.
Qed.

(** The empty vector has norm 0: the result is 0 whatever the other
    vector. *)
Lemma C10_witness :
  (np_linalg_norm [] = 0 \/ np_linalg_norm [1; 2] = 0)
  /\ compute_similarity [] [1; 2] = Ok 0.
Proof.
  assert (H : np_linalg_norm [] = 0 \/ np_linalg_norm [1; 2] = 0)
    by (left; apply sqrt_0).
  split; [exact H|].
  exact (proj1 (C10_zero_norm_guard [] [1; 2]) H).
Defined.

(** C10 as stated fails on vectors of different lengths with non-zero
    norms: [np.dot] raises and no value is returned. *)
Lemma C10_shape_counterexample :
  compute_similarity [1; 2] [1; 2; 3] = Raise ShapesNotAligned.
Proof.
  unfold compute_similarity.
  destruct (Req_dec_T (np_linalg_norm [1; 2]) 0) as [Z|_].
  { exfalso. revert Z. apply norm_nonzero. left. lra. }
  destruct (Req_dec_T (np_linalg_norm [1; 2; 3]) 0) as [Z|_].
  { exfalso. revert Z. apply norm_nonzero. left. lra. }
  reflexivity.
Qed.

End SimilarityFacts.

(* ================================================================= *)
(** * Further properties of the search route *)

Lemma StronglySorted_firstn_skipn :
  forall (A : Type) (R : A -> A -> Prop) n l,
    StronglySorted R l ->
    Forall (fun x => Forall (R x) (skipn n l)) (firstn n l).
Proof.
  intros A R n. induction n as [|n IH]; intros l S; simpl; [constructor|].
  destruct l as [|x l]; [constructor|].
  inversion S as [|? ? S' F]; subst. constructor.
  - rewrite <- (firstn_skipn n l) in F. apply Forall_app in F. tauto.
  - now apply IH.
Qed.


Section SearchMore.
Context {backend : Backend}.


(** X2.  [search_similar] returns the best [top_k] candidates: the returned
    list together with the rows left out is a rearrangement of all the joined
    rows that pass the WHERE clause, its length is [min top_k] of their
    number, and no row left out has a higher similarity than a returned
    one. *)
Theorem X2_search_returns_top_k :
  forall db query_embedding top_k min_score tags_filter verified_only raw,
    search_similar db query_embedding top_k min_score tags_filter verified_only
    = Ok raw ->
    let candidates :=
      filter (where_clause min_score tags_filter verified_only)
             (join_rows db query_embedding) in
    exists left_out,
      Permutation (raw ++ map to_result left_out) (map to_result candidates)
      /\ List.length raw = Nat.min (Z.to_nat top_k) (List.length candidates)
      /\ Forall (fun c =>
                   Forall (fun row => row_similarity row <= snd c) left_out)
                raw.
Proof.
  intros db qe k m tf v raw H candidates.
  apply search_similar_inv in H as [_ ->].
  unfold fetched_rows. fold candidates.
  set (sorted := order_by similarity_desc candidates).
  exists (skipn (Z.to_nat k) sorted). split; [|split].
  - rewrite <- map_app, firstn_skipn. apply Permutation_map.
    apply order_by_perm.
  - rewrite length_map, length_firstn. unfold sorted.
    now rewrite order_by_length.
  - rewrite Forall_map.
    eapply Forall_impl;
      [|apply StronglySorted_firstn_skipn;
        apply (order_by_sorted _ similarity_desc similarity_desc_total
                               similarity_desc_trans)].
    intros x Hx. simpl. eapply Forall_impl; [|exact Hx].
    intros y Hy. unfold similarity_desc in Hy. now apply Qle_bool_iff.
Qed.

Lemma In_join_rows_full :
  forall db qe row,
    In row (join_rows db qe) ->
    exists e r,
      In e (agent_embeddings db) /\ In r (registry_entries db)
      /\ e_agent_id e = r_agent_id r
      /\ row = mkSearchRow (r_agent_id r) (r_agent_card r) (r_tags r)
                 (r_verified r) (e_text_content e)
                 (1 - cosine_distance (e_embedding e) qe).
Proof.
  intros db qe row H. unfold join_rows in H.
  apply in_flat_map in H as (e & He & H).
  apply in_map_iff in H as (r & <- & Hr).
  apply filter_In in Hr as [Hr E]. apply String.eqb_eq in E.
  exists e, r. auto.
Qed.

(** X3.  Every hit of a successful search is the projection of a row of
    [registry_entries] that has an embedding: the hit carries the agent id,
    the tags and the verified flag of that row and the validated form of its
    card.  An agent without a registry row, or without an embedding, is never
    returned.  [total] is the number of hits and the query is echoed. *)
Theorem X3_hits_come_from_registry :
  forall db request response,
    semantic_search db request = Ok response ->
    total response = List.length (results response)
    /\ resp_query response = query request
    /\ Forall
         (fun hit =>
            exists r e,
              In r (registry_entries db) /\ In e (agent_embeddings db)
              /\ r_agent_id r = res_agent_id hit
              /\ e_agent_id e = res_agent_id hit
              /\ res_tags hit = r_tags r
              /\ res_verified hit = r_verified r
              /\ validate_AgentCard (r_agent_card r)
                 = Some (res_agent_card hit))
         (results response).
Proof.
  intros db request response H.
  apply semantic_search_inv in H as (qe & raw & _ & S & F & Q & T).
  split; [assumption|]. split; [assumption|].
  apply search_similar_inv in S as [_ ->].
  apply format_results_Forall2 in F.
  eapply Forall2_Forall_r; [exact F|].
  intros [a s] hit Hin Hf. cbv beta in Hf.
  apply in_map_iff in Hin as (row & Hrow & Hin).
  apply In_fetched_rows in Hin as [Hj _].
  apply In_join_rows_full in Hj as (e & r & He & Hr & Eid & ->).
  apply format_result_inv in Hf as (card & V & -> & _).
  unfold to_result in Hrow. simpl in Hrow. injection Hrow as <- <-.
  exists r, e. simpl in *. auto 10.
Qed.

End SearchMore.


Lemma X2_witness :
  exists raw left_out,
    search_similar (backend := Examples.example_backend) Examples.db_tie
                   Examples.unit_x 1 (1 # 2) None false
    = Ok raw
    /\ List.length raw = 1%nat
    /\ Forall (fun c =>
                 Forall (fun row => row_similarity row <= snd c) left_out)
              raw.
Proof.
  destruct (search_similar (backend := Examples.example_backend)
              Examples.db_tie Examples.unit_x 1 (1 # 2) None false)
    as [raw|] eqn:H; [|vm_compute in H; discriminate].
  destruct (@X2_search_returns_top_k Examples.example_backend Examples.db_tie
              Examples.unit_x 1%Z (1 # 2) None false raw H)
    as (left_out & _ & L & F).
  exists raw, left_out. split; [reflexivity|]. split; [exact L | exact F].
Defined.

Lemma X3_witness :
  exists response,
    semantic_search (backend := Examples.example_backend)
                    Examples.db_tie Examples.request_tie
    = Ok response
    /\ total response = List.length (results response).
Proof.
  eexists. split; [vm_compute; reflexivity|].
  apply (@X3_hits_come_from_registry Examples.example_backend
           Examples.db_tie Examples.request_tie).
  vm_compute; reflexivity.
Defined.




Section SearchFailure.
Context {backend : Backend}.


(** X5.  With the empty query every hit is attributed to the name: the
    empty string occurs in every name. *)
Theorem X5_empty_query_matches_name :
  forall db request response,
    query request = "" ->
    semantic_search db request = Ok response ->
    Forall (fun hit => matched_on hit = "name") (results response).
Proof.
  intros db request response Q H.
  apply semantic_search_inv in H as (qe & raw & _ & _ & F & _).
  rewrite Q in F. apply format_results_Forall2 in F.
  eapply Forall2_Forall_r; [exact F|].
  intros [a s] hit _ Hf. cbv beta in Hf.
  apply format_result_inv in Hf as (card & _ & -> & _). simpl.
  unfold determine_matched_on. simpl lower.
  now rewrite contains_unfold.
Qed.

End SearchFailure.

Lemma round4_upper : forall x : Q, round4 x <= x + (1 # 20000).
Proof.
  intros x.
  destruct (round_half_even_spec (Qnum x * 10000) (Qden x)) as ([_ U] & _ & _).
  cbv zeta in U. unfold round4, Qle, Qplus. simpl.
  set (z := round_half_even (Qnum x * 10000) (Qden x)) in *.
  rewrite Pos2Z.inj_mul. nia.
Qed.

(** X6.  The score reported for a hit differs from the similarity computed
    by the store by at most half a unit of the fourth decimal. *)
Theorem X6_score_accuracy :
  forall (backend : Backend) db request response,
    semantic_search db request = Ok response ->
    exists query_embedding,
      encode (query request) = Some query_embedding
      /\ Forall
           (fun hit =>
              exists e,
                In e (agent_embeddings db)
                /\ e_agent_id e = res_agent_id hit
                /\ (1 - cosine_distance (e_embedding e) query_embedding)
                   - (1 # 20000)
                   <= similarity_score hit
                /\ similarity_score hit
                   <= (1 - cosine_distance (e_embedding e) query_embedding)
                      + (1 # 20000))
           (results response).
Proof.
  intros backend db request response H.
  destruct (search_hits_origin _ _ _ H) as (qe & E & O).
  exists qe. split; [assumption|].
  eapply Forall_impl; [|exact O].
  intros hit (e & He & Hid & _ & -> & _). exists e.
  split; [assumption|]. split; [assumption|].
  split; [apply round4_lower | apply round4_upper].
Qed.

Lemma X5_witness :
  query Examples.request_empty_query = ""
  /\ exists response,
       semantic_search (backend := Examples.example_backend)
                       Examples.db_tie Examples.request_empty_query
       = Ok response
       /\ Forall (fun hit => matched_on hit = "name") (results response).
Proof.
  split; [reflexivity|]. eexists. split; [vm_compute; reflexivity|].
  apply (@X5_empty_query_matches_name Examples.example_backend
           Examples.db_tie Examples.request_empty_query);
    [reflexivity | vm_compute; reflexivity].
Defined.

Lemma X6_witness :
  exists response query_embedding,
    semantic_search (backend := Examples.example_backend)
                    Examples.db_5_13 Examples.request_5_13
    = Ok response
    /\ encode (Backend := Examples.example_backend)
              (query Examples.request_5_13)
       = Some query_embedding.
Proof.
  destruct (semantic_search (backend := Examples.example_backend)
              Examples.db_5_13 Examples.request_5_13)
    as [response|] eqn:H; [|vm_compute in H; discriminate].
  destruct (X6_score_accuracy Examples.example_backend Examples.db_5_13
              Examples.request_5_13 response H) as (qe & E & _).
  exists response, qe. split; [reflexivity | exact E].
Defined.

(* ================================================================= *)
(** * Further properties of the embedding table *)


Lemma filter_do_update_others :
  forall id emb text now l,
    filter (fun e => negb (has_agent_id id e)) (map (do_update id emb text now) l)
    = filter (fun e => negb (has_agent_id id e)) l.
Proof.
  intros id emb text now l. induction l as [|e l IH]; simpl; [reflexivity|].
  unfold do_update at 1 2.
  destruct (has_agent_id id e) eqn:X.
  - unfold has_agent_id in *. simpl. rewrite X. simpl. exact IH.
  - rewrite X. simpl. now rewrite IH.
Qed.

(** X8.  A successful [store_embedding] touches the entries of the written
    agent only: the registry is unchanged, and the entries of all other
    agents are the same rows in the same order. *)
Theorem X8_store_embedding_frame :
  forall db now agent_id embedding text_content db',
    store_embedding db now agent_id embedding text_content = Ok db' ->
    registry_entries db' = registry_entries db
    /\ entries_of_others agent_id db' = entries_of_others agent_id db.
Proof.
  intros db now id emb text db' H.
  apply store_embedding_inv in H
    as (_ & _ & R & [(_ & E) | (_ & _ & E)]);
    (split; [assumption|]); unfold entries_of_others; rewrite E.
  - apply filter_do_update_others.
  - rewrite filter_app. simpl. unfold has_agent_id at 2. simpl.
    rewrite String.eqb_refl. simpl. apply app_nil_r.
Qed.

Lemma store_embedding_seq :
  forall db now id emb text db',
    store_embedding db now id emb text = Ok db' ->
    agent_embeddings_id_seq db' = (agent_embeddings_id_seq db + 1)%Z.
Proof.
  intros db now id emb text db' H. unfold store_embedding in H.
  destruct (255 <? String.length id)%nat; [discriminate|].
  destruct (negb _); [discriminate|].
  destruct (existsb (has_agent_id id) (agent_embeddings db)).
  - now injection H as <-.
  - destruct (existsb _ (registry_entries db)); [|discriminate].
    now injection H as <-.
Qed.

Lemma map_do_update_keys :
  forall id emb text now l,
    map e_id (map (do_update id emb text now) l) = map e_id l.
Proof.
  intros. rewrite map_map. apply map_ext. intros e. unfold do_update.
  now destruct (has_agent_id id e).
Qed.

Lemma store_embedding_serial_key :
  forall db now id emb text db',
    serial_key_ok db ->
    store_embedding db now id emb text = Ok db' ->
    serial_key_ok db'.
Proof.
  intros db now id emb text db' [N B] H.
  pose proof (store_embedding_seq _ _ _ _ _ _ H) as Sq.
  apply store_embedding_inv in H
    as (_ & _ & _ & [(I & E) | (I & _ & E)]); unfold serial_key_ok.
  - rewrite E, Sq, map_do_update_keys.
    split; [assumption|]. rewrite Forall_map.
    eapply Forall_impl; [|exact B]. intros e He. cbv beta in He.
    unfold do_update. destruct (has_agent_id id e); simpl; lia.
  - rewrite E, Sq, map_app. simpl. split.
    + apply NoDup_app; [assumption | repeat constructor; simpl; tauto |].
      intros x Hx [<- | []].
      apply in_map_iff in Hx as (e & Ee & He).
      rewrite Forall_forall in B. specialize (B e He). lia.
    + apply Forall_app. split.
      * eapply Forall_impl; [|exact B]. intros e He. cbv beta in He. lia.
      * repeat constructor. simpl. lia.
Qed.

(** X9.  A successful [store_embedding] keeps the primary key sound: the
    ids stay pairwise distinct and below the next value of the sequence.  The
    entry of the written agent keeps the id and the creation time of the row
    it replaces; when there was none it gets the current value of the
    sequence as id and the time of the write as creation time. *)
Theorem X9_store_embedding_primary_key :
  forall db now agent_id embedding text_content db',
    serial_key_ok db ->
    store_embedding db now agent_id embedding text_content = Ok db' ->
    serial_key_ok db'
    /\ Forall
         (fun e' =>
            (exists e,
                In e (entries_of agent_id db)
                /\ e_id e' = e_id e /\ e_created_at e' = e_created_at e)
            \/ (entries_of agent_id db = []
                /\ e_id e' = agent_embeddings_id_seq db
                /\ e_created_at e' = now))
         (entries_of agent_id db').
Proof.
  intros db now id emb text db' K H.
  split; [eapply store_embedding_serial_key; eauto|].
  apply store_embedding_inv in H
    as (_ & _ & _ & [(I & E) | (I & _ & E)]);
    apply Forall_forall; intros e' He'; unfold entries_of in *;
    apply filter_In in He' as [He' Hid]; rewrite E in He'.
  - apply in_map_iff in He' as (e & <- & He). left. exists e.
    assert (X : has_agent_id id e = true).
    { unfold do_update in Hid.
      destruct (has_agent_id id e) eqn:X; [reflexivity | congruence]. }
    split; [apply filter_In; auto|].
    unfold do_update. rewrite X. auto.
  - apply in_app_or in He' as [He' | [<- | []]].
    + exfalso. apply I. apply in_map_iff. exists e'.
      unfold has_agent_id in Hid. apply String.eqb_eq in Hid. auto.
    + right. split; [now apply filter_has_agent_id_absent | auto].
Qed.

Lemma X8_witness :
  exists db',
    store_embedding Examples.db_tie 9 "agent-a" Examples.unit_x "text" = Ok db'
    /\ entries_of_others "agent-a" db' = entries_of_others "agent-a" Examples.db_tie.
Proof.
  eexists. split; [vm_compute; reflexivity|].
  apply (X8_store_embedding_frame Examples.db_tie 9%Z "agent-a" Examples.unit_x
           "text").
  vm_compute; reflexivity.
Defined.

Lemma X9_witness :
  serial_key_ok Examples.db_tie
  /\ exists db',
       store_embedding Examples.db_tie 9 "agent-a" Examples.unit_x "text"
       = Ok db'
       /\ serial_key_ok db'.
Proof.
  assert (K : serial_key_ok Examples.db_tie).
  { split.
    - repeat constructor; simpl; intuition discriminate.
    - repeat constructor; simpl; lia. }
  split; [exact K|]. eexists. split; [vm_compute; reflexivity|].
  apply (X9_store_embedding_primary_key Examples.db_tie 9%Z "agent-a"
           Examples.unit_x "text"); [exact K | vm_compute; reflexivity].
Defined.

(* ================================================================= *)
(** * Further properties of the index routes *)

Lemma fold_left_list_append_map :
  forall (A B C : Type) (g : A -> B) (f : B -> C) (l : list A) (init : list C),
    fold_left (fun acc x => list_append acc (f x)) (map g l) init
    = fold_left (fun acc x => list_append acc (f (g x))) l init.
Proof.
  intros A B C g f l. induction l as [|x l IH]; intros init; simpl;
    [reflexivity | apply IH].
Qed.

Lemma index_text_content_agree :
  forall request,
    index_agent_text_content request
    = index_all_text_content (snapshot_of_request request).
Proof.
  intros request. unfold index_agent_text_content, index_all_text_content.
  simpl. rewrite fold_left_list_append_map. reflexivity.
Qed.


Section IndexMore.
Context {backend : Backend}.


(** X11.  The single-agent route and the bulk route treat an agent alike:
    indexing a request writes what one turn of the bulk loop writes for the
    registry row that holds the dumped card and the tags of the request:
    the same embedding and the same text. *)
Theorem X11_index_routes_agree :
  forall db now request,
    result_map fst (index_agent db now request)
    = except_500 (index_all_try db now (snapshot_of_request request)).
Proof.
  intros db now request.
  unfold index_agent, index_all_try, except_500, bind, of_option, of_db.
  rewrite index_text_content_agree. simpl.
  destruct (embed_agent _ _) as [emb|]; [|reflexivity].
  destruct (store_embedding _ _ _ _ _); reflexivity.
Qed.

Lemma index_all_try_store :
  forall db now agent db',
    index_all_try db now agent = Ok db' ->
    exists emb,
      store_embedding db now (as_agent_id agent) emb
                      (index_all_text_content agent) = Ok db'.
Proof.
  intros db now agent db' H.
  unfold index_all_try, bind, of_option, of_db in H.
  destruct (embed_agent _ _) as [emb|]; [|discriminate].
  destruct (store_embedding _ _ _ _ _) as [d|] eqn:S; [|discriminate].
  injection H as <-. eauto.
Qed.

Lemma index_all_fold_invariant :
  forall (Inv : Database -> Prop) now l,
    (forall db a db',
        In a l -> Inv db -> index_all_try db now a = Ok db' -> Inv db') ->
    forall db indexed failed,
      Inv db ->
      Inv (fst (fst (fold_left (index_all_body now) l (db, indexed, failed)))).
Proof.
  intros Inv now l. induction l as [|a l IH]; intros Step db i f H;
    [exact H|].
  change (fold_left (index_all_body now) (a :: l) (db, i, f))
    with (fold_left (index_all_body now) l
            (match index_all_try db now a with
             | Ok db' => (db', i + 1, f)%nat
             | Raise _ => (db, i, f + 1)%nat
             end)).
  destruct (index_all_try db now a) as [db1|e] eqn:T.
  - apply IH; [intros; eapply Step; eauto; now right|].
    eapply Step; eauto. now left.
  - apply IH; [intros; eapply Step; eauto; now right | assumption].
Qed.

Lemma index_all_agents_db :
  forall db now db' response,
    index_all_agents db now = Ok (db', response) ->
    db' = fst (fst (fold_left (index_all_body now) (get_all_agents db)
                              (db, 0%nat, 0%nat))).
Proof.
  intros db now db' response H. unfold index_all_agents, except_500 in H.
  destruct (fold_left _ _ _) as [[d i] f]. now injection H as <- _.
Qed.

Lemma filter_do_update_other :
  forall id emb text now other l,
    other <> id ->
    filter (has_agent_id other) (map (do_update id emb text now) l)
    = filter (has_agent_id other) l.
Proof.
  intros id emb text now other l Ne.
  induction l as [|e l IH]; simpl; [reflexivity|].
  unfold do_update at 1 2. destruct (has_agent_id id e) eqn:X.
  - unfold has_agent_id in *. simpl. apply String.eqb_eq in X.
    rewrite X. apply String.eqb_neq in Ne.
    rewrite String.eqb_sym in Ne. rewrite Ne. exact IH.
  - destruct (has_agent_id other e); now rewrite IH.
Qed.

Lemma store_embedding_entries_of_other :
  forall db now id emb text db' other,
    store_embedding db now id emb text = Ok db' ->
    other <> id ->
    entries_of other db' = entries_of other db.
Proof.
  intros db now id emb text db' other H Ne.
  apply store_embedding_inv in H
    as (_ & _ & _ & [(_ & E) | (_ & _ & E)]); unfold entries_of; rewrite E.
  - now apply filter_do_update_other.
  - rewrite filter_app. simpl. unfold has_agent_id at 2. simpl.
    apply String.eqb_neq in Ne. rewrite String.eqb_sym in Ne. rewrite Ne.
    apply app_nil_r.
Qed.


(** X13.  A run of the bulk route keeps the agent ids of the embedding table
    pairwise distinct and the primary key sound, and it leaves the entries of
    every agent that has no registry row as they were. *)
Theorem X13_index_all_invariants :
  forall db now db' response,
    index_all_agents db now = Ok (db', response) ->
    (unique_agent_ids db -> unique_agent_ids db')
    /\ (serial_key_ok db -> serial_key_ok db')
    /\ forall agent_id,
         ~ In agent_id (map r_agent_id (registry_entries db)) ->
         entries_of agent_id db' = entries_of agent_id db.
Proof.
  intros db now db' response H.
  apply index_all_agents_db in H. subst db'.
  split; [|split].
  - apply index_all_fold_invariant. intros d a d' _ U T.
    apply index_all_try_store in T as [emb S].
    now apply (store_embedding_unique _ _ _ _ _ _ U S).
  - apply index_all_fold_invariant. intros d a d' _ K T.
    apply index_all_try_store in T as [emb S].
    now apply (store_embedding_serial_key _ _ _ _ _ _ K S).
  - intros id Hid.
    apply (index_all_fold_invariant
             (fun d => entries_of id d = entries_of id db)); [|reflexivity].
    intros d a d' Ha Eq T.
    apply index_all_try_store in T as [emb S].
    rewrite <- Eq. eapply store_embedding_entries_of_other; [exact S|].
    intros ->. apply Hid. now apply get_all_agents_registered.
Qed.

End IndexMore.

Section IndexAgain.
Context {backend : Backend}.




End IndexAgain.

Lemma registered_at_total :
  forall x y : RegistryRow,
    (r_registered_at x <=? r_registered_at y)%Z = false ->
    (r_registered_at y <=? r_registered_at x)%Z = true.
Proof. intros x y. rewrite Z.leb_gt, Z.leb_le. lia. Qed.

Lemma registered_at_trans :
  forall x y z : RegistryRow,
    (r_registered_at x <=? r_registered_at y)%Z = true ->
    (r_registered_at y <=? r_registered_at z)%Z = true ->
    (r_registered_at x <=? r_registered_at z)%Z = true.
Proof. intros x y z. rewrite !Z.leb_le. lia. Qed.

(** X15.  The snapshot of [get_all_agents] holds every registry row exactly
    once, in ascending order of registration time, each as its agent id, card
    and tags. *)
Theorem X15_get_all_agents_snapshot :
  forall db,
    exists rows,
      Permutation rows (registry_entries db)
      /\ StronglySorted
           (fun x y => (r_registered_at x <= r_registered_at y)%Z) rows
      /\ get_all_agents db
         = map (fun r => mkAgentSnapshot (r_agent_id r) (r_agent_card r)
                                         (r_tags r))
               rows.
Proof.
  intros db.
  exists (order_by (fun x y => (r_registered_at x <=? r_registered_at y)%Z)
                   (registry_entries db)).
  split; [apply order_by_perm|]. split; [|reflexivity].
  eapply StronglySorted_impl;
    [|apply order_by_sorted;
      [apply registered_at_total | apply registered_at_trans]].
  intros x y H. now apply Z.leb_le.
Qed.




Lemma X13_witness :
  exists db' response,
    index_all_agents (backend := Examples.backend_one_failure)
                     Examples.db_three 7
    = Ok (db', response)
    /\ (unique_agent_ids Examples.db_three -> unique_agent_ids db').
Proof.
  destruct (index_all_agents (backend := Examples.backend_one_failure)
                             Examples.db_three 7)
    as [[db' response]|] eqn:H; [|vm_compute in H; discriminate].
  exists db', response. split; [reflexivity|].
  apply (@X13_index_all_invariants Examples.backend_one_failure
           Examples.db_three 7%Z db' response H).
Defined.


(* ================================================================= *)
(** * The stored text and the embedded text *)

Lemma string_length_append :
  forall s1 s2, String.length (s1 ++ s2) = (String.length s1 + String.length s2)%nat.
Proof.
  induction s1 as [|c s1 IH]; intros s2; simpl; [reflexivity|].
  now rewrite IH.
Qed.

Lemma join_cons_cons :
  forall sep p q rest,
    join sep (p :: q :: rest) = p ++ sep ++ join sep (q :: rest).
Proof. reflexivity. Qed.

Lemma join_length :
  forall sep p rest,
    String.length (join sep (p :: rest))
    = (list_sum (map String.length (p :: rest))
       + List.length rest * String.length sep)%nat.
Proof.
  intros sep p rest. revert p.
  induction rest as [|q rest IH]; intros p.
  - simpl. lia.
  - rewrite join_cons_cons, !string_length_append, IH. simpl. lia.
Qed.

Lemma index_all_text_content_parts :
  forall agent,
    index_all_text_content agent = join " | " (stored_parts agent).
Proof.
  intros agent. unfold index_all_text_content, stored_parts.
  rewrite fold_left_list_append. cbv zeta. f_equal.
  unfold stored_description, stored_skill.
  destruct (as_tags agent) as [|t ts];
    destruct (get_truthy (cd_description (as_agent_card agent)));
    unfold list_append; simpl; rewrite <- ?app_assoc, ?app_nil_r; reflexivity.
Qed.

Lemma skill_parts_overhead :
  forall skills,
    list_sum (map String.length (map ComposerSpec.skill_entry skills))
    = (list_sum (map String.length (map stored_skill skills))
       + list_sum (map skill_overhead skills))%nat.
Proof.
  induction skills as [|[n d] skills IH]; [reflexivity|].
  cbn [map]. change (list_sum (?x :: ?l)) with (x + list_sum l)%nat.
  rewrite IH. unfold ComposerSpec.skill_entry, stored_skill, skill_overhead.
  destruct n as [n|], d as [[|c d]|]; simpl;
    rewrite ?string_length_append; simpl; lia.
Qed.

Lemma skill_parts_equal :
  forall skills,
    list_sum (map skill_overhead skills) = 0%nat ->
    map ComposerSpec.skill_entry skills = map stored_skill skills.
Proof.
  induction skills as [|[n d] skills IH]; [reflexivity|].
  cbn [map]. change (list_sum (?x :: ?l)) with (x + list_sum l)%nat.
  intros H. apply Nat.eq_add_0 in H as [H1 H2].
  rewrite (IH H2). f_equal.
  unfold ComposerSpec.skill_entry, stored_skill, skill_overhead in *.
  destruct n as [n|], d as [[|c d]|]; simpl in *; try reflexivity;
    discriminate.
Qed.

Lemma description_parts_overhead :
  forall card,
    list_sum (map String.length
                  (ComposerSpec.optional_segment "Description: "
                                                 (cd_description card)))
    = (list_sum (map String.length (stored_description card))
       + match get_truthy (cd_description card) with
         | Some _ => 13
         | None => 0
         end)%nat
    /\ List.length (ComposerSpec.optional_segment "Description: "
                                                  (cd_description card))
       = List.length (stored_description card).
Proof.
  intros card. unfold stored_description.
  destruct (cd_description card) as [[|c d]|]; simpl; split;
    try reflexivity. lia.
Qed.

(** X17.  For a card with a non-empty name, the text that is embedded is
    longer than the text that the bulk route stores beside the embedding by
    exactly the characters that the descriptions add: 13 for the prefix
    "Description: " and, for each skill with a description, 3 plus the length
    of that description, which the stored text leaves out.  The two texts are
    equal exactly when the card and its skills have no description. *)
Theorem X17_stored_text_and_embedded_text :
  forall agent,
    get_truthy (cd_name (as_agent_card agent)) <> None ->
    String.length (combined_text (as_agent_card agent) (Some (as_tags agent)))
    = (String.length (index_all_text_content agent)
       + description_overhead (as_agent_card agent))%nat
    /\ (combined_text (as_agent_card agent) (Some (as_tags agent))
        = index_all_text_content agent
        <-> description_overhead (as_agent_card agent) = 0%nat).
Proof.
  intros [id card tags] Hn. cbn [as_agent_card as_tags] in *.
  rewrite index_all_text_content_parts.
  unfold combined_text. rewrite text_parts_segments.
  unfold ComposerSpec.segments, stored_parts, description_overhead.
  cbn [as_agent_card as_tags].
  destruct (cd_name card) as [[|c n]|]; simpl in Hn; try congruence.
  clear Hn. cbn [ComposerSpec.optional_segment get_default].
  set (head := "Agent: " ++ String c n).
  change ([head] ++ ?l)%list with (head :: l).
  destruct (description_parts_overhead card) as [SD LD].
  set (D := ComposerSpec.optional_segment "Description: " (cd_description card))
    in *.
  set (T := ComposerSpec.tags_segment (Some tags)).
  assert (P1 :
    String.length
      (join " | "
         (head :: D ++ map ComposerSpec.skill_entry (cd_skills card) ++ T)%list)
    = (String.length
         (join " | "
            (head :: stored_description card
                  ++ map stored_skill (cd_skills card) ++ T)%list)
       + (match get_truthy (cd_description card) with
          | Some _ => 13
          | None => 0
          end + list_sum (map skill_overhead (cd_skills card))))%nat).
  { rewrite !join_length.
    cbn [map]. change (list_sum (?x :: ?l)) with (x + list_sum l)%nat.
    rewrite !map_app, !list_sum_app, !length_app, !length_map.
    rewrite skill_parts_overhead, SD, LD. lia. }
  split; [exact P1|]. split.
  - intros H. rewrite H in P1. lia.
  - intros Z. apply Nat.eq_add_0 in Z as [Z1 Z2].
    rewrite (skill_parts_equal _ Z2).
    unfold D, stored_description.
    destruct (cd_description card) as [[|c' d]|]; simpl in *;
      try reflexivity. discriminate.
Qed.

Lemma X17_witness :
  get_truthy (cd_name Examples.translator_card) <> None
  /\ String.length
       (combined_text Examples.translator_card (Some ["nlp"]))
     = (String.length
          (index_all_text_content
             (mkAgentSnapshot "agent-1" Examples.translator_card ["nlp"]))
        + 13)%nat.
Proof.
  assert (H : get_truthy (cd_name Examples.translator_card) <> None)
    by discriminate.
  split; [exact H|].
  exact (proj1 (X17_stored_text_and_embedded_text
                  (mkAgentSnapshot "agent-1" Examples.translator_card ["nlp"])
                  H)).
Defined.

(* ================================================================= *)
(** * Further properties of [compute_similarity] *)

Section SimilarityMore.
Import Similarity.
Local Open Scope R_scope.



Lemma norm_opp : forall v, np_linalg_norm (map Ropp v) = np_linalg_norm v.
Proof.
  intros v. unfold np_linalg_norm. f_equal.
  induction v as [|x v IH]; simpl; [reflexivity|]. rewrite IH. lra.
Qed.











End SimilarityMore.

(* ================================================================= *)
(** * Properties of the service singletons *)

Section LifecycleFacts.
Import Lifecycle.

(** X21.  The database singleton connects at most once: after any call of
    [get_database_service] the variable holds a service object, and every
    later call returns that object as it is, whatever the outside answers.
    In particular, when the pool could not be created by the first call, the
    object has no pool, no later call tries again, and it is never
    connected. *)
Theorem X21_database_connect_attempted_once :
  forall w g,
    exists service,
      _db_service (fst (get_database_service w g)) = Some service
      /\ (forall w',
             get_database_service w' (fst (get_database_service w g))
             = (fst (get_database_service w g), Ok service))
      /\ (_db_service g = None -> create_pool_ok w = false ->
          snd (get_database_service w g) = Raise PoolError
          /\ _pool service = None
          /\ forall w', is_connected w' service = false).
Proof.
  intros w g. unfold get_database_service at 1 3 4 5.
  destruct (_db_service g) as [service|] eqn:E.
  - exists service. simpl. split; [assumption|]. split; [|discriminate].
    intros w'. unfold get_database_service. now rewrite E.
  - unfold connect. destruct (create_pool_ok w).
    + destruct (setup_ok w); eexists; simpl;
        (split; [reflexivity|]); (split; [reflexivity | discriminate]).
    + eexists. simpl. split; [reflexivity|]. split; [reflexivity|].
      intros _ _. auto.
Qed.

(** X22.  [close_database_service] empties the variable and is idempotent;
    the object it disconnects is not connected any more; and the next call of
    [get_database_service] connects anew: with a database that accepts the
    pool and the table setup it returns a service that is connected as soon
    as SELECT 1 answers. *)
Theorem X22_close_allows_reconnect :
  forall g w,
    _db_service (fst (close_database_service g)) = None
    /\ close_database_service (fst (close_database_service g))
       = (fst (close_database_service g), None)
    /\ (forall service w',
           snd (close_database_service g) = Some service ->
           is_connected w' service = false)
    /\ (create_pool_ok w = true -> setup_ok w = true ->
        exists service,
          get_database_service w (fst (close_database_service g))
          = (mkGlobals (Some service) (_redis_client g), Ok service)
          /\ is_connected w service = select_1_ok w).
Proof.
  intros g w. unfold close_database_service at 1 3 4 5 6.
  destruct (_db_service g) as [service|] eqn:E; simpl.
  - split; [reflexivity|]. split; [reflexivity|]. split.
    + intros s w' H. injection H as <-. unfold disconnect.
      destruct (_pool service) eqn:Pl; unfold is_connected; simpl;
        [reflexivity | now rewrite Pl].
    + intros P S. unfold get_database_service, connect. simpl.
      rewrite P, S. eexists. split; reflexivity.
  - split; [assumption|]. split.
    + unfold close_database_service. now rewrite E.
    + split; [discriminate|].
      intros P S. unfold get_database_service, connect. rewrite E, P, S.
      eexists. split; reflexivity.
Qed.

Lemma health_check_no_pool :
  forall w g,
    _db_service g = Some (mkDatabaseService None) ->
    _db_service (fst (health_check w g)) = Some (mkDatabaseService None)
    /\ status (snd (health_check w g)) = "degraded"
    /\ database_connected (snd (health_check w g)) = false.
Proof.
  intros w g E. unfold health_check, get_database_service. rewrite E.
  unfold get_redis.
  destruct (_redis_client g);
    [|destruct (redis_from_url_ok w && redis_ping_ok w)]; simpl; auto.
Qed.

Lemma health_checks_no_pool :
  forall ws g,
    _db_service g = Some (mkDatabaseService None) ->
    Forall (fun response =>
              status response = "degraded"
              /\ database_connected response = false)
           (health_checks ws g).
Proof.
  induction ws as [|w ws IH]; intros g E; simpl; [constructor|].
  destruct (health_check_no_pool w g E) as (E' & S & D).
  destruct (health_check w g) as [g' response]. simpl in *.
  constructor; auto.
Qed.

(** X23.  The service starts whenever the model loads, also when the pool
    cannot be created.  From then on every health check answers "degraded"
    with [database_connected = false], whatever the database does later;
    Redis is different: a health check made when Redis answers reports
    [redis_connected = true] even if Redis was down at startup. *)
Theorem X23_degraded_after_failed_startup :
  forall w service log,
    model_load_ok w = true ->
    create_pool_ok w = false ->
    exists g service' log',
      startup w fresh service log = Ok (g, service', log')
      /\ (forall ws,
             Forall (fun response =>
                       status response = "degraded"
                       /\ database_connected response = false)
                    (health_checks ws g))
      /\ (forall w',
             redis_from_url_ok w' = true -> redis_ping_ok w' = true ->
             redis_connected (snd (health_check w' g)) = true).
Proof.
  intros w service log M P. unfold startup, model.
  destruct (_model service) as [m|]; [|rewrite M];
    (eexists; eexists; eexists; split; [reflexivity|]);
    unfold get_database_service, connect, fresh; simpl; rewrite P; simpl;
    (split; [intros ws; apply health_checks_no_pool;
             unfold get_redis; simpl;
             destruct (redis_from_url_ok w && redis_ping_ok w); reflexivity|]);
    intros w' U Pg; unfold health_check, get_database_service, get_redis;
    simpl; destruct (redis_from_url_ok w && redis_ping_ok w); simpl;
    rewrite ?U, ?Pg; simpl; rewrite ?Pg; reflexivity.
Qed.

Lemma model_accesses_cons :
  forall w ws self log,
    model_accesses (w :: ws) self log
    = model_accesses ws (fst (fst (model w self log)))
                     (snd (fst (model w self log))).
Proof.
  intros w ws self log. unfold model_accesses. simpl.
  now destruct (model w self log) as [[s l] r].
Qed.

Lemma model_accesses_loaded :
  forall ws self log m,
    _model self = Some m -> model_accesses ws self log = (self, log).
Proof.
  induction ws as [|w ws IH]; intros self log m E; [reflexivity|].
  rewrite model_accesses_cons. unfold model. rewrite E. simpl.
  eapply IH. eassumption.
Qed.

Lemma filter_list_append :
  forall (A : Type) (p : A -> bool) (l : list A) (x : A),
    filter p (list_append l x) = (filter p l ++ if p x then [x] else [])%list.
Proof.
  intros A p l x. unfold list_append. rewrite filter_app. simpl.
  now destruct (p x).
Qed.

Lemma model_accesses_unloaded :
  forall ws name log,
    let '(service, log') :=
      model_accesses ws (mkEmbeddingService name None) log in
    model_name service = name
    /\ (if existsb model_load_ok ws
        then _model service = Some (mkModel name)
             /\ filter is_model_loaded log'
                = (filter is_model_loaded log ++ [ModelLoaded name])%list
        else _model service = None
             /\ filter is_model_loaded log' = filter is_model_loaded log).
Proof.
  induction ws as [|w ws IH]; intros name log.
  - simpl. auto.
  - rewrite model_accesses_cons. unfold model. simpl.
    destruct (model_load_ok w) eqn:L; simpl.
    + rewrite (model_accesses_loaded ws _ _ (mkModel name)) by reflexivity.
      simpl. split; [reflexivity|]. split; [reflexivity|].
      rewrite !filter_list_append. simpl. now rewrite app_nil_r.
    + specialize (IH name (list_append log (LoadingModel name))).
      destruct (model_accesses ws (mkEmbeddingService name None)
                  (list_append log (LoadingModel name))) as [service log'].
      rewrite filter_list_append in IH. simpl in IH.
      rewrite app_nil_r in IH. exact IH.
Qed.

(** X24.  The model is loaded lazily and at most once: over any sequence of
    accesses to [model], starting from a service without model, "model
    loaded" is logged once if some access finds the loader working and never
    otherwise; the service then holds the model, and every further access
    returns it without loading or logging.  Accesses that fail leave the
    service without model, so the next access tries again. *)
Theorem X24_model_loaded_at_most_once :
  forall ws name,
    let '(service, log) :=
      model_accesses ws (mkEmbeddingService name None) [] in
    filter is_model_loaded log
    = (if existsb model_load_ok ws then [ModelLoaded name] else [])
    /\ _model service
       = (if existsb model_load_ok ws then Some (mkModel name) else None)
    /\ forall m w,
         _model service = Some m ->
         model w service log = (service, log, Ok m).
Proof.
  intros ws name.
  pose proof (model_accesses_unloaded ws name []) as H.
  destruct (model_accesses ws (mkEmbeddingService name None) [])
    as [service log].
  destruct H as [_ H].
  destruct (existsb model_load_ok ws); destruct H as [M F]; simpl in F.
  - split; [assumption|]. split; [assumption|].
    intros m w E. unfold model. now rewrite E.
  - split; [assumption|]. split; [assumption|].
    intros m w E. congruence.
Qed.

End LifecycleFacts.

Lemma X23_witness :
  exists g service' log',
    Lifecycle.startup
      (Lifecycle.mkWorld false false false false false true)
      Lifecycle.fresh
      (Lifecycle.mkEmbeddingService "all-MiniLM-L6-v2" None) []
    = Ok (g, service', log')
    /\ Lifecycle.redis_connected
         (snd (Lifecycle.health_check
                 (Lifecycle.mkWorld true true true true true true) g))
       = true.
Proof.
  destruct (X23_degraded_after_failed_startup
              (Lifecycle.mkWorld false false false false false true)
              (Lifecycle.mkEmbeddingService "all-MiniLM-L6-v2" None) []
              eq_refl eq_refl) as (g & s & l & E & _ & R).
  exists g, s, l. split; [exact E|].
  apply R; reflexivity.
Defined.

(* ================================================================= *)
(** * Properties of the Python client *)

Lemma bind_raise_not_ok :
  forall (E A B : Type) (m : result E A) (f : A -> E) (b : B),
    Py.bind m (fun a => Raise (f a)) <> Ok b.
Proof. intros E A B [a|e] f b; discriminate. Qed.

Lemma handle_response_success :
  forall (P : Type) (r : Client.Response P),
    Client.is_success r = true ->
    Client._handle_response r = Ok (Client.response_data r).
Proof.
  intros P r H. unfold Client._handle_response.
  unfold Client.is_success in *.
  apply andb_true_iff in H as [L U].
  apply Z.leb_le in L, U.
  destruct (Client.status_code r =? 404)%Z eqn:E1;
    [apply Z.eqb_eq in E1; lia|].
  destruct (Client.status_code r =? 409)%Z eqn:E2;
    [apply Z.eqb_eq in E2; lia|].
  destruct (Client.status_code r =? 400)%Z eqn:E3;
    [apply Z.eqb_eq in E3; lia|].
  destruct (500 <=? Client.status_code r)%Z eqn:E4;
    [apply Z.leb_le in E4; lia|].
  replace ((200 <=? Client.status_code r)%Z && (Client.status_code r <=? 299)%Z)
    with true; [reflexivity|].
  symmetry. apply andb_true_iff. split; now apply Z.leb_le.
Qed.

Lemma handle_response_failure :
  forall (P : Type) (r : Client.Response P),
    Client.is_success r = false ->
    exists e,
      Client._handle_response r = Raise e
      /\ ((Client.is_registry_error e = true
           /\ Client.error_status_code e = Some (Client.status_code r))
          \/ (e = Client.OtherException P "AttributeError"
              /\ Client.json r = Some (Client.JsonOther P))).
Proof.
  intros P r H. unfold Client._handle_response. rewrite H.
  unfold Client.response_data.
  destruct (Client.status_code r =? 404)%Z eqn:E1;
    [apply Z.eqb_eq in E1|];
    [|destruct (Client.status_code r =? 409)%Z eqn:E2;
      [apply Z.eqb_eq in E2|];
      [|destruct (Client.status_code r =? 400)%Z eqn:E3;
        [apply Z.eqb_eq in E3|];
        [|destruct (500 <=? Client.status_code r)%Z eqn:E4]]];
    destruct (Client.json r) as [[a m rest|]|]; simpl;
    eexists; (split; [reflexivity|]); simpl;
    first [right; split; reflexivity | left; split; [reflexivity|]];
    first [reflexivity | now rewrite ?E1, ?E2, ?E3].
Qed.

Lemma handle_response_ok_bounds :
  forall (P : Type) (r : Client.Response P),
    ((exists data, Client._handle_response r = Ok data) ->
     (200 <= Client.status_code r <= 299)%Z)
    /\ (forall data,
           Client._handle_response r = Ok data ->
           data = Client.response_data r).
Proof.
  intros P r. destruct (Client.is_success r) eqn:H.
  - rewrite (handle_response_success P r H). split.
    + intros _. unfold Client.is_success in H.
      apply andb_true_iff in H as [L U]. apply Z.leb_le in L, U. lia.
    + intros data D. now injection D as <-.
  - destruct (handle_response_failure P r H) as (e & E & _). rewrite E.
    split; [intros [d D]; discriminate | discriminate].
Qed.

(** X25.  [_handle_response] returns exactly for the statuses 200 to 299,
    and then it returns the body.  In every other case it raises, and the
    [RegistryError] it raises carries the status code of the response; the
    only other exception arises when the body is JSON but not an object. *)
Theorem X25_handle_response_classifies :
  forall (P : Type) (r : Client.Response P),
    ((exists data, Client._handle_response r = Ok data)
     <-> (200 <= Client.status_code r <= 299)%Z)
    /\ (forall data,
           Client._handle_response r = Ok data ->
           data = Client.response_data r)
    /\ (forall e,
           Client._handle_response r = Raise e ->
           (Client.is_registry_error e = true
            /\ Client.error_status_code e = Some (Client.status_code r))
           \/ (e = Client.OtherException P "AttributeError"
               /\ Client.json r = Some (Client.JsonOther P))).
Proof.
  intros P r.
  assert (S : Client.is_success r = true
              <-> (200 <= Client.status_code r <= 299)%Z).
  { unfold Client.is_success. rewrite andb_true_iff, !Z.leb_le. tauto. }
  destruct (Client.is_success r) eqn:H.
  - pose proof (handle_response_success P r H) as E. rewrite E.
    split; [|split].
    + split; [intros _; now apply S | eauto].
    + intros data D. now injection D as <-.
    + discriminate.
  - destruct (handle_response_failure P r H) as (e & E & C). rewrite E.
    split; [|split].
    + split; [intros [d D]; discriminate|].
      intros B. apply S in B. discriminate.
    + discriminate.
    + intros e' D. injection D as <-. exact C.
Qed.

(** X26.  [delete_agent] returns exactly when the response has a status from
    200 to 299.  On 404 it raises [AgentNotFoundError] for the agent id it
    was called with, whatever the body says; on every other status it raises
    what [_handle_response] raises. *)
Theorem X26_delete_agent_outcome :
  forall (P : Type) (agent_id : string) (r : Client.Response P),
    (Client.delete_agent agent_id (Client.Responded r) = Ok tt
     <-> (200 <= Client.status_code r <= 299)%Z)
    /\ (Client.status_code r = 404%Z ->
        Client.delete_agent agent_id (Client.Responded r)
        = Raise (Client.AgentNotFoundError P agent_id))
    /\ (Client.status_code r <> 404%Z ->
        forall e,
          Client.delete_agent agent_id (Client.Responded r) = Raise e ->
          Client._handle_response r = Raise e).
Proof.
  intros P id r.
  assert (S : Client.is_success r = true
              <-> (200 <= Client.status_code r <= 299)%Z).
  { unfold Client.is_success. rewrite andb_true_iff, !Z.leb_le. tauto. }
  unfold Client.delete_agent.
  destruct (Client.status_code r =? 404)%Z eqn:E.
  - apply Z.eqb_eq in E. split; [|split].
    + split; [discriminate | lia].
    + reflexivity.
    + contradiction.
  - apply Z.eqb_neq in E.
    destruct (Client.is_success r) eqn:H; simpl.
    + split; [|split]; [| contradiction | discriminate].
      split; [intros _; now apply S | reflexivity].
    + destruct (handle_response_failure P r H) as (e & Eq & _). rewrite Eq.
      split; [|split]; [| contradiction |].
      * split; [discriminate|]. intros B. apply S in B. discriminate.
      * intros _ e' D. now injection D as <-.
Qed.

(** X27.  The client's [semantic_search] returns results only for a response
    with a status from 200 to 299 whose body the response model accepts.
    Whatever else happens it raises a [RegistryError]: an error that
    [_handle_response] raises for the status passes unchanged, and a failure
    of the transport, of the body or of the model is wrapped in
    [ConnectionError] or [SemanticSearchError]. *)
Theorem X27_client_search_errors :
  forall (P R : Type) (parse_results : Client.Data P -> result string (list R))
         (t : Client.Transport P),
    (forall e,
        Client.semantic_search parse_results t = Raise e ->
        Client.is_registry_error e = true)
    /\ (forall results,
           Client.semantic_search parse_results t = Ok results ->
           exists r,
             t = Client.Responded r
             /\ (200 <= Client.status_code r <= 299)%Z
             /\ parse_results (Client.response_data r) = Ok results)
    /\ (forall r e,
           t = Client.Responded r ->
           Client._handle_response r = Raise e ->
           Client.is_registry_error e = true ->
           Client.semantic_search parse_results t = Raise e).
Proof.
  intros P R parse t. split; [|split].
  - intros e H. destruct t as [what|what|r]; simpl in H.
    + now injection H as <-.
    + now injection H as <-.
    + destruct (Client._handle_response r) as [data|e'].
      * destruct (parse data); [discriminate|]. now injection H as <-.
      * destruct e'; injection H as <-; reflexivity.
  - intros results H. destruct t as [what|what|r]; simpl in H;
      try discriminate.
    exists r. split; [reflexivity|].
    destruct (handle_response_ok_bounds P r) as [B D].
    destruct (Client._handle_response r) as [data|e'] eqn:E.
    + split; [apply B; eauto|]. rewrite <- (D data eq_refl).
      destruct (parse data); [now injection H as <- | discriminate].
    + destruct e'; discriminate.
  - intros r e -> E Hr. simpl. rewrite E. now destruct e.
Qed.

(** X28.  The filters that a caller passes to the client's
    [semantic_search] are the filters that the search route applies to the
    store: for the payload built by the client, the route's extraction of
    the filters leads to the same store query as the caller's [tags] and
    [verified_only]; an empty tag list, which the client leaves out, filters
    nothing in either case.  The query, [top_k] and [min_score] are sent
    unchanged. *)
Theorem X28_client_filters_reach_the_store :
  forall (backend : Backend) db query_embedding q k m tags verified_only,
    let payload := Client.search_payload q k m tags verified_only in
    query payload = q /\ top_k payload = k /\ min_score payload = m
    /\ search_similar db query_embedding (top_k payload) (min_score payload)
         (request_tags_filter payload) (request_verified_only payload)
       = search_similar db query_embedding k m tags verified_only.
Proof.
  intros backend db qe q k m tags v payload. unfold payload.
  split; [reflexivity|]. split; [reflexivity|]. split; [reflexivity|].
  destruct tags as [[|t ts]|], v; reflexivity.
Qed.

Lemma api_skill_text :
  forall s,
    skill_text (mkSkillData (Some (skill_name s))
                            (get_truthy (skill_description s)))
    = skill_text (Skill_model_dump s).
Proof.
  intros [n [[|c d]|]]; reflexivity.
Qed.

Lemma api_card_skills :
  forall c,
    cd_skills (Client.card_data_of_api (Client.to_api_dict c))
    = map (fun s => mkSkillData (Some (skill_name s))
                                (get_truthy (skill_description s)))
          (Client.c_skills c).
Proof.
  intros c. unfold Client.card_data_of_api, Client.to_api_dict. simpl.
  now destruct (Client.c_skills c).
Qed.

(** X29.  The dictionary that the client sends for a card ([to_api_dict])
    and the dump of the same card on the server ([model_dump]) are embedded
    as the same text: the keys that [to_api_dict] leaves out (an empty
    description, an empty skill list) are those that the composition skips.
    The dictionary passes the validation of the search service, with the
    name, the endpoint and the skill names of the card. *)
Theorem X29_api_dict_embeds_like_model_dump :
  forall (c : Client.ClientAgentCard) (tags : option (list string)),
    combined_text (Client.card_data_of_api (Client.to_api_dict c)) tags
    = combined_text (model_dump (Client.server_card c)) tags
    /\ exists card,
         validate_AgentCard (Client.card_data_of_api (Client.to_api_dict c))
         = Some card
         /\ card_name card = Client.c_name c
         /\ card_endpoint card = Client.c_endpoint c
         /\ map skill_name (card_skills card)
            = map skill_name (Client.c_skills c).
Proof.
  intros c tags. split.
  - unfold combined_text.
    assert (T : text_parts (Client.card_data_of_api (Client.to_api_dict c)) tags
                = text_parts (model_dump (Client.server_card c)) tags).
    { unfold text_parts. rewrite api_card_skills.
      cbn [model_dump Client.server_card cd_skills cd_name cd_description
           Client.card_data_of_api Client.to_api_dict Client.api_name
           Client.api_description card_name card_description card_skills].
      rewrite !fold_left_list_append, !map_map.
      rewrite (map_ext _ _ api_skill_text).
      destruct (Client.c_description c) as [[|x d]|]; reflexivity. }
    rewrite T. reflexivity.
  - unfold validate_AgentCard. rewrite api_card_skills.
    cbn [Client.card_data_of_api Client.to_api_dict Client.api_name
         Client.api_endpoint Client.api_description cd_name cd_endpoint
         cd_description].
    assert (V : validate_skills
                  (map (fun s => mkSkillData (Some (skill_name s))
                                             (get_truthy (skill_description s)))
                       (Client.c_skills c))
                = Some (map (fun s => mkSkill (skill_name s)
                                              (get_truthy (skill_description s)))
                            (Client.c_skills c))).
    { induction (Client.c_skills c) as [|s l IH]; simpl; [reflexivity|].
      now rewrite IH. }
    rewrite V. eexists. split; [reflexivity|]. simpl.
    split; [reflexivity|]. split; [reflexivity|].
    now rewrite map_map.
Qed.

Lemma rstrip_decompose :
  forall ch s, exists n, s = Client.rstrip ch s ++ Client.repeat_char ch n.
Proof.
  intros ch. induction s as [|c s IH]; [exists 0%nat; reflexivity|].
  destruct IH as [n IH]. simpl.
  destruct (Client.rstrip ch s) as [|c' r] eqn:E.
  - simpl in IH. destruct (Ascii.eqb c ch) eqn:C.
    + apply Ascii.eqb_eq in C. subst c. exists (S n). simpl. now rewrite <- IH.
    + exists n. simpl. now rewrite <- IH.
  - exists n. simpl. simpl in IH. now rewrite <- IH.
Qed.

Lemma rstrip_no_trailing :
  forall ch s t, Client.rstrip ch s <> t ++ String ch EmptyString.
Proof.
  intros ch. induction s as [|c s IH]; intros t; simpl.
  - destruct t; discriminate.
  - destruct (Client.rstrip ch s) as [|c' r] eqn:E.
    + destruct (Ascii.eqb c ch) eqn:C.
      * destruct t; discriminate.
      * apply Ascii.eqb_neq in C. destruct t as [|x t]; simpl.
        -- intros H. injection H as H. congruence.
        -- destruct t; discriminate.
    + destruct t as [|x t]; simpl; [discriminate|].
      intros H. injection H as _ H. apply (IH t). exact H.
Qed.

Lemma rstrip_idempotent :
  forall ch s, Client.rstrip ch (Client.rstrip ch s) = Client.rstrip ch s.
Proof.
  intros ch. induction s as [|c s IH]; [reflexivity|]. simpl.
  destruct (Client.rstrip ch s) as [|c' r] eqn:E.
  - destruct (Ascii.eqb c ch) eqn:C; simpl; [reflexivity | now rewrite C].
  - change (Client.rstrip ch (String c (String c' r)))
      with (match Client.rstrip ch (String c' r) with
            | EmptyString =>
                if Ascii.eqb c ch then EmptyString else String c EmptyString
            | String c'' r' => String c (String c'' r')
            end).
    now rewrite IH.
Qed.

(** X30.  The [base_url] of a client is the given URL without its trailing
    slashes: the URL is the [base_url] followed by slashes only, the
    [base_url] does not end with a slash, and constructing a client from a
    [base_url] changes nothing. *)
Theorem X30_base_url_without_trailing_slash :
  forall url timeout api_key,
    let client := Client.init url timeout api_key in
    (exists n, url = Client.base_url client ++ Client.repeat_char "/" n)
    /\ (forall s, Client.base_url client <> s ++ "/")
    /\ Client.base_url (Client.init (Client.base_url client) timeout api_key)
       = Client.base_url client.
Proof.
  intros url timeout api_key client. unfold client, Client.init. simpl.
  split; [apply rstrip_decompose|].
  split; [intros s; apply rstrip_no_trailing | apply rstrip_idempotent].
Qed.
